(** * Movie listing API: request handlers over the relational store

    A shallow embedding of [app/models.py], [app/database.py],
    [app/auth.py], [app/main.py], [app/routers/movies.py] and
    [app/routers/users.py].

    - A table is the list of its rows in insertion order; a query is a
      [filter] over it, [.first()] is [find], [.all()] is the filtered list.
    - A handler runs in the monad [M]: a SQLAlchemy session (the committed
      store plus the unit of work that is still pending) threaded through
      the handler together with the Python exception it may raise.
    - An integer of a request is a Python integer, any [Z]; an integer
      of the store is a SQLite integer, of 64 bits.  Where a handler hands
      an integer of the request to the database, the driver raises
      [OverflowError] when it does not fit.
    - Time is counted in whole seconds since the epoch, the resolution of
      the [exp] claim of a JSON web token. *)

From Stdlib Require Import ZArith List String Bool Lia.
Import ListNotations.
Local Open Scope string_scope.
Local Open Scope list_scope.
Local Open Scope Z_scope.

(* ================================================================== *)
(** ** app/models.py *)

(** Columns that the program can leave NULL are options: [full_name] is
    never written, [movie_id] of a rating or comment is blanked by the ORM
    when its movie is deleted, [parent_id] is declared [nullable=True]. *)

Module User.
Record t : Type := mk
  { id : Z;
    username : string;
    email : string;
    full_name : option string;
    hashed_password : string;
    disabled : bool }.
End User.

Module Movie.
Record t : Type := mk
  { id : Z;
    title : string;
    description : string;
    release_year : Z;
    owner_id : Z }.
End Movie.

Module Rating.
Record t : Type := mk
  { id : Z;
    movie_id : option Z;
    rating : Z;
    user_id : Z }.
End Rating.

Module Comment.
Record t : Type := mk
  { id : Z;
    movie_id : option Z;
    text : string;
    user_id : Z;
    parent_id : option Z }.
End Comment.

(** The four tables bound to [Base.metadata]. *)
Record DB : Type := mkDB
  { users : list User.t;
    movies : list Movie.t;
    ratings : list Rating.t;
    comments : list Comment.t }.

(* ================================================================== *)
(** ** Exceptions and results *)

(** The exception classes the handlers raise or catch.  All of them derive
    from Python's [Exception]; [ExpiredSignatureError] derives from
    [JWTError] (python-jose); [IntegrityError] is what the database driver
    raises on a violated UNIQUE index; [InvalidRequestError] is the ORM's
    complaint about refreshing a row that is gone; [OverflowError] is what
    the sqlite3 driver raises when it is given an integer that does not
    fit 64 bits; [CircularDependencyError] is what the ORM's unit of work
    raises when the rows of a flush depend on each other in a cycle;
    [PendingRollbackError] is what a session raises when it is used after
    a failed flush and before a rollback. *)
Inductive Exception : Type :=
| HTTPException (status_code : Z) (detail : string)
| JWTError
| ExpiredSignatureError
| IntegrityError
| InvalidRequestError
| OverflowError
| CircularDependencyError
| PendingRollbackError.

(** [except Exception] *)
Definition isinstance_Exception (e : Exception) : bool := true.

(** [except JWTError] *)
Definition isinstance_JWTError (e : Exception) : bool :=
  match e with
  | JWTError | ExpiredSignatureError => true
  | _ => false
  end.

Inductive Result (A : Type) : Type :=
| Return (a : A)
| Raise (e : Exception).
Arguments Return {A} a.
Arguments Raise {A} e.

(* ================================================================== *)
(** ** The session: unit of work and flush *)

(** What a session holds between [db.add] / an attribute assignment /
    [db.delete] and the next [db.commit()]. *)
Inductive Pending : Type :=
| Insert_User (username email hashed_password : string)
| Insert_Movie (title description : string) (release_year owner_id : Z)
| Insert_Rating (movie_id rating user_id : Z)
| Insert_Comment (movie_id : Z) (text : string) (user_id : Z)
                 (parent_id : option Z)
| Set_Movie_title (id : Z) (v : string)
| Set_Movie_description (id : Z) (v : string)
| Set_Movie_release_year (id : Z) (v : Z)
| Set_User_username (id : Z) (v : string)
| Set_User_email (id : Z) (v : string)
| Delete_Movie (id : Z)
| Delete_Comment (id : Z).

(** [sessionmaker(autocommit=False, autoflush=False)]: queries read the
    committed [store]; [pending] reaches it only on [commit]; after a
    flush has failed the session is [inactive] until it is rolled back. *)
Record Session : Type := mkSession
  { store : DB;
    pending : list Pending;
    inactive : bool }.

(** The key an INSERT into an [Integer primary_key] column gets: one more
    than the largest key of the table. *)
Definition next_id (ids : list Z) : Z := 1 + fold_right Z.max 0 ids.

Definition mem (z : Z) (l : list Z) : bool := existsb (Z.eqb z) l.

Definition refers_to (fk : option Z) (id : Z) : bool :=
  match fk with
  | Some k => k =? id
  | None => false
  end.

(** *** Integers the driver can bind

    SQLite integers are signed and 64 bits wide.  The handlers take
    Python integers of any size from the request and hand them to the
    driver as statement parameters; the driver raises [OverflowError] for
    one that does not fit.  [int64] is the test for a value of the
    request; [fits] is the test for an id of the request, which may be the
    key of a row of the store: the keys a store holds are SQLite integers,
    so they fit. *)

Definition int64 (z : Z) : bool := (- 2 ^ 63 <=? z) && (z <? 2 ^ 63).

Definition keys_of (db : DB) : list Z :=
  map User.id (users db) ++ map Movie.id (movies db) ++
  map Rating.id (ratings db) ++ map Comment.id (comments db).

Definition fits (db : DB) (z : Z) : bool := int64 z || mem z (keys_of db).

Definition fits_if_given (db : DB) (z : option Z) : bool :=
  match z with
  | Some k => fits db k
  | None => true
  end.

Arguments int64 z : simpl never.
Arguments fits db z : simpl never.

(** *** Cascades declared on the relationships

    [Movie.ratings] and [Movie.comments] declare no cascade: when a movie
    is deleted the ORM loads the rows that reference it and blanks their
    foreign key.  [Comment.replies] declares
    [cascade="all, delete-orphan"]: deleting a comment deletes its
    replies, and theirs. *)

Definition blank_rating (movie : Z) (r : Rating.t) : Rating.t :=
  if refers_to (Rating.movie_id r) movie
  then Rating.mk (Rating.id r) None (Rating.rating r) (Rating.user_id r)
  else r.

Definition blank_comment (movie : Z) (c : Comment.t) : Comment.t :=
  if refers_to (Comment.movie_id c) movie
  then Comment.mk (Comment.id c) None (Comment.text c) (Comment.user_id c)
         (Comment.parent_id c)
  else c.

(** The replies of the comments already marked that are not marked yet. *)
Definition fresh_reply (marked : list Z) (c : Comment.t) : bool :=
  match Comment.parent_id c with
  | Some p => mem p marked && negb (mem (Comment.id c) marked)
  | None => false
  end.

(** One round per level of the reply tree; a table of [n] rows has no
    more than [n] levels, and a comment is visited once, so reply cycles
    do not loop. *)
Fixpoint cascade (rounds : nat) (cs : list Comment.t) (marked : list Z)
  : list Z :=
  match rounds with
  | O => marked
  | S n =>
      cascade n cs (marked ++ map Comment.id (filter (fresh_reply marked) cs))
  end.

Definition delete_orphan (root : Z) (cs : list Comment.t) : list Z :=
  cascade (List.length cs) cs [root].

(** The rows of a cascade are deleted replies first.  When the comment to
    delete is, through [parent_id], a reply to itself or to one of the
    comments its cascade reaches, no such order exists. *)
Definition reply_cycle (root : Z) (cs : list Comment.t) : bool :=
  match find (fun c => Comment.id c =? root) cs with
  | Some c =>
      match Comment.parent_id c with
      | Some p => mem p (delete_orphan root cs)
      | None => false
      end
  | None => false
  end.

(** *** Column updates *)

Definition set_title (k : Z) (v : string) (m : Movie.t) : Movie.t :=
  if Movie.id m =? k
  then Movie.mk (Movie.id m) v (Movie.description m) (Movie.release_year m)
         (Movie.owner_id m)
  else m.

Definition set_description (k : Z) (v : string) (m : Movie.t) : Movie.t :=
  if Movie.id m =? k
  then Movie.mk (Movie.id m) (Movie.title m) v (Movie.release_year m)
         (Movie.owner_id m)
  else m.

Definition set_release_year (k : Z) (v : Z) (m : Movie.t) : Movie.t :=
  if Movie.id m =? k
  then Movie.mk (Movie.id m) (Movie.title m) (Movie.description m) v
         (Movie.owner_id m)
  else m.

Definition set_username (k : Z) (v : string) (u : User.t) : User.t :=
  if User.id u =? k
  then User.mk (User.id u) v (User.email u) (User.full_name u)
         (User.hashed_password u) (User.disabled u)
  else u.

Definition set_email (k : Z) (v : string) (u : User.t) : User.t :=
  if User.id u =? k
  then User.mk (User.id u) (User.username u) v (User.full_name u)
         (User.hashed_password u) (User.disabled u)
  else u.

(** *** The UNIQUE indexes on [users.username] and [users.email] *)

Definition username_taken (v : string) (us : list User.t) : bool :=
  existsb (fun u => String.eqb (User.username u) v) us.

Definition email_taken (v : string) (us : list User.t) : bool :=
  existsb (fun u => String.eqb (User.email u) v) us.

Definition others (k : Z) (us : list User.t) : list User.t :=
  filter (fun u => negb (User.id u =? k)) us.

(** One statement of a flush: the new store and the key of the inserted
    row (0 when the statement is not an INSERT).  Foreign keys are not
    checked: the engine is SQLite and no [PRAGMA foreign_keys] is issued.
    The integers a statement takes from the request are bound by the
    driver; the key of the row it writes and the id of the current user
    come from the store. *)
Definition flush_one (p : Pending) (db : DB) : Result (DB * Z) :=
  match p with
  | Insert_User n e h =>
      if username_taken n (users db) || email_taken e (users db)
      then Raise IntegrityError
      else
        let k := next_id (map User.id (users db)) in
        Return (mkDB (users db ++ [User.mk k n e None h false])
                  (movies db) (ratings db) (comments db), k)
  | Insert_Movie t d y o =>
      if int64 y
      then
        let k := next_id (map Movie.id (movies db)) in
        Return (mkDB (users db) (movies db ++ [Movie.mk k t d y o])
                  (ratings db) (comments db), k)
      else Raise OverflowError
  | Insert_Rating m r u =>
      if fits db m && int64 r
      then
        let k := next_id (map Rating.id (ratings db)) in
        Return (mkDB (users db) (movies db)
                  (ratings db ++ [Rating.mk k (Some m) r u]) (comments db), k)
      else Raise OverflowError
  | Insert_Comment m t u p =>
      if fits db m && fits_if_given db p
      then
        let k := next_id (map Comment.id (comments db)) in
        Return (mkDB (users db) (movies db) (ratings db)
                  (comments db ++ [Comment.mk k (Some m) t u p]), k)
      else Raise OverflowError
  | Set_Movie_title k v =>
      Return (mkDB (users db) (map (set_title k v) (movies db))
                (ratings db) (comments db), 0)
  | Set_Movie_description k v =>
      Return (mkDB (users db) (map (set_description k v) (movies db))
                (ratings db) (comments db), 0)
  | Set_Movie_release_year k v =>
      if int64 v
      then Return (mkDB (users db) (map (set_release_year k v) (movies db))
                     (ratings db) (comments db), 0)
      else Raise OverflowError
  | Set_User_username k v =>
      if username_taken v (others k (users db))
      then Raise IntegrityError
      else Return (mkDB (map (set_username k v) (users db))
                     (movies db) (ratings db) (comments db), 0)
  | Set_User_email k v =>
      if email_taken v (others k (users db))
      then Raise IntegrityError
      else Return (mkDB (map (set_email k v) (users db))
                     (movies db) (ratings db) (comments db), 0)
  | Delete_Movie k =>
      Return (mkDB (users db)
                (filter (fun m => negb (Movie.id m =? k)) (movies db))
                (map (blank_rating k) (ratings db))
                (map (blank_comment k) (comments db)), 0)
  | Delete_Comment k =>
      if reply_cycle k (comments db)
      then Raise CircularDependencyError
      else
        let gone := delete_orphan k (comments db) in
        Return (mkDB (users db) (movies db) (ratings db)
                  (filter (fun c => negb (mem (Comment.id c) gone))
                     (comments db)), 0)
  end.

(** The statements of a flush, in order; the first failure aborts it. *)
Fixpoint flush (ps : list Pending) (db : DB) (lastrowid : Z)
  : Result (DB * Z) :=
  match ps with
  | [] => Return (db, lastrowid)
  | p :: ps' =>
      match flush_one p db with
      | Return (db', k) => flush ps' db' (if k =? 0 then lastrowid else k)
      | Raise e => Raise e
      end
  end.

(* ================================================================== *)
(** ** The handler monad *)

Definition M (A : Type) : Type := Session -> Result A * Session.

Definition ret {A : Type} (a : A) : M A := fun s => (Return a, s).

Definition raise {A : Type} (e : Exception) : M A := fun s => (Raise e, s).

Definition bind {A B : Type} (c : M A) (k : A -> M B) : M B :=
  fun s =>
    match c s with
    | (Return a, s') => k a s'
    | (Raise e, s') => (Raise e, s')
    end.

Declare Scope handler_scope.
Delimit Scope handler_scope with handler.
Notation "x <- c ;; k" := (bind c (fun x => k))
  (at level 61, c at next level, right associativity) : handler_scope.
Notation "c ;; k" := (bind c (fun _ => k))
  (at level 61, right associativity) : handler_scope.
Local Open Scope handler_scope.

(** [try: body / except C as e: handler e], with [catches] the
    [isinstance] test of the class [C]. *)
Definition try_except {A : Type} (body : M A) (catches : Exception -> bool)
  (handler : Exception -> M A) : M A :=
  fun s =>
    match body s with
    | (Return a, s') => (Return a, s')
    | (Raise e, s') => if catches e then handler e s' else (Raise e, s')
    end.

(** [db.query(T).filter(p).first()], for a test [p] on a string column. *)
Definition query_first {A : Type} (table : DB -> list A) (p : A -> bool)
  : M (option A) :=
  fun s => (Return (find p (table (store s))), s).

(** [db.query(T).filter(T.id == k).first()], with [k] an integer of the
    request: the driver binds [k], then the table is searched. *)
Definition query_key {A : Type} (table : DB -> list A) (key : A -> Z) (k : Z)
  : M (option A) :=
  fun s =>
    if fits (store s) k
    then (Return (find (fun r => key r =? k) (table (store s))), s)
    else (Raise OverflowError, s).

(** [db.query(T).filter(T.ref == k).all()], with [k] an integer of the
    request and [ref] a nullable foreign key. *)
Definition query_refs {A : Type} (table : DB -> list A) (ref : A -> option Z)
  (k : Z) : M (list A) :=
  fun s =>
    if fits (store s) k
    then (Return (filter (fun r => refers_to (ref r) k) (table (store s))), s)
    else (Raise OverflowError, s).

(** [OFFSET skip LIMIT limit] as SQLite evaluates it: a negative offset
    counts as zero, a negative limit as no limit. *)
Definition offset_limit {A : Type} (skip limit : Z) (rows : list A) : list A :=
  let rest := skipn (Z.to_nat skip) rows in
  if limit <? 0 then rest else firstn (Z.to_nat limit) rest.

(** [db.query(T).offset(skip).limit(limit).all()]: the driver binds both
    integers, then the page is read. *)
Definition query_offset_limit {A : Type} (table : DB -> list A)
  (skip limit : Z) : M (list A) :=
  fun s =>
    if int64 skip && int64 limit
    then (Return (offset_limit skip limit (table (store s))), s)
    else (Raise OverflowError, s).

(** [db.add(obj)], [obj.attr = v] on a persistent object, [db.delete(obj)] *)
Definition stage (p : Pending) : M unit :=
  fun s => (Return tt, mkSession (store s) (pending s ++ [p]) (inactive s)).

(** [db.commit()]: flush and commit, or raise and roll back.  The value
    is the key the flush wrote into a newly added object.  A flush that
    fails leaves the session inactive. *)
Definition commit : M Z :=
  fun s =>
    match flush (pending s) (store s) 0 with
    | Return (db', k) => (Return k, mkSession db' [] (inactive s))
    | Raise e => (Raise e, mkSession (store s) [] true)
    end.

(** [obj.attr] on a persistent object, where the session may be
    inactive.  A failed flush expires the objects of the session, so the
    attribute has to be loaded again, and an inactive session refuses to
    load.  On a live session the read is the value itself, which is how
    the other attribute reads of the handlers are written. *)
Definition attribute {A : Type} (value : A) : M A :=
  fun s =>
    if inactive s then (Raise PendingRollbackError, s) else (Return value, s).

(** [db.refresh(obj)]: the row with the object's key, read back. *)
Definition refresh {A : Type} (table : DB -> list A) (key : A -> Z) (k : Z)
  : M A :=
  fun s =>
    match find (fun r => key r =? k) (table (store s)) with
    | Some r => (Return r, s)
    | None => (Raise InvalidRequestError, s)
    end.

(** A library call that returns or raises without touching the session. *)
Definition call {A : Type} (r : Result A) : M A := fun s => (r, s).

(** [get_db] of [app/database.py]: a fresh session per request, closed in
    the [finally]; what was not committed is dropped with it. *)
Definition get_db {A : Type} (handler : M A) (db : DB) : Result A * DB :=
  let (r, s) := handler (mkSession db [] false) in (r, store s).

(* ================================================================== *)
(** ** Request bodies (the pydantic models) *)

Module UserCreate.
Record t : Type := mk { username : string; email : string; password : string }.
End UserCreate.

Module MovieCreate.
Record t : Type := mk
  { title : string; description : string; release_year : Z }.
End MovieCreate.

Module RatingCreate.
Record t : Type := mk { movie_id : Z; rating : Z }.
End RatingCreate.

Module CommentCreate.
Record t : Type := mk { movie_id : Z; text : string; parent_id : option Z }.
End CommentCreate.

Module UserUpdate.
Record t : Type := mk { username : string; email : string }.
End UserUpdate.

(* ================================================================== *)
(** ** JSON web tokens (python-jose) *)

(** The claims the program puts into a token: [sub] and [exp]. *)
Record Claims : Type := mkClaims { sub : option string; exp : option Z }.

(** A compact JWS: the claims and the signature over them. *)
Record Token : Type := mkToken { payload : Claims; signature : string }.

Definition SECRET_KEY : string := "your_secret_key".
Definition ACCESS_TOKEN_EXPIRE_MINUTES : Z := 30.

(** [timedelta(minutes=m)], in seconds. *)
Definition timedelta (minutes : Z) : Z := 60 * minutes.

(** [a or b] on an optional timedelta: [None] and the zero timedelta are
    both falsy. *)
Definition or_else (a : option Z) (b : Z) : Z :=
  match a with
  | Some d => if d =? 0 then b else d
  | None => b
  end.

Definition InternalServerError : Exception :=
  HTTPException 500 "Internal Server Error".

Module auth.
Section Libraries.

(** [pwd_context.hash] and [pwd_context.verify] of passlib, and the
    HMAC-SHA256 signature of the claims under a key. *)
Variable pwd_context_hash : string -> string.
Variable pwd_context_verify : string -> string -> bool.
Variable HS256 : string -> Claims -> string.

(** [jwt.encode(claims, key, algorithm=ALGORITHM)] *)
Definition jwt_encode (claims : Claims) (key : string) : Token :=
  mkToken claims (HS256 key claims).

(** [jwt.decode(token, key, algorithms=[ALGORITHM])] at time [utcnow]:
    [JWTError] on a signature that does not verify,
    [ExpiredSignatureError] once [exp] is in the past. *)
Definition jwt_decode (token : Token) (key : string) (utcnow : Z)
  : Result Claims :=
  if String.eqb (signature token) (HS256 key (payload token))
  then
    match exp (payload token) with
    | Some e =>
        if e <? utcnow then Raise ExpiredSignatureError
        else Return (payload token)
    | None => Return (payload token)
    end
  else Raise JWTError.

Definition verify_password (plain_password hashed_password : string) : bool :=
  pwd_context_verify plain_password hashed_password.

Definition get_password_hash (password : string) : string :=
  pwd_context_hash password.

Definition create_access_token (data : Claims) (expires_delta : option Z)
  (utcnow : Z) : Token :=
  let to_encode := data in
  let expire := utcnow + or_else expires_delta (timedelta 15) in
  let to_encode := mkClaims (sub to_encode) (Some expire) in
  jwt_encode to_encode SECRET_KEY.

(** The body of the [try] of [register_user]. *)
Definition register_user_try (user : UserCreate.t) : M (string * string) :=
  db_user <- query_first users
    (fun u => String.eqb (User.username u) (UserCreate.username user)) ;;
  match db_user with
  | Some _ => raise (HTTPException 400 "Username already registered")
  | None =>
      db_user <- query_first users
        (fun u => String.eqb (User.email u) (UserCreate.email user)) ;;
      match db_user with
      | Some _ => raise (HTTPException 400 "Email already registered")
      | None =>
          let hashed_password :=
            get_password_hash (UserCreate.password user) in
          stage (Insert_User (UserCreate.username user)
                   (UserCreate.email user) hashed_password) ;;
          k <- commit ;;
          new_user <- refresh users User.id k ;;
          ret (User.username new_user, User.email new_user)
      end
  end.

(** [POST /auth/register/] *)
Definition register_user (user : UserCreate.t) : M (string * string) :=
  try_except (register_user_try user) isinstance_Exception
    (fun e => raise InternalServerError).

Record TokenResponse : Type := mkTokenResponse
  { access_token : Token; token_type : string }.

(** The body of the [try] of [login]. *)
Definition login_try (user : UserCreate.t) (utcnow : Z) : M TokenResponse :=
  db_user <- query_first users
    (fun u => String.eqb (User.username u) (UserCreate.username user)) ;;
  match db_user with
  | None => raise (HTTPException 401 "Invalid username or password")
  | Some db_user =>
      if negb (verify_password (UserCreate.password user)
                 (User.hashed_password db_user))
      then raise (HTTPException 401 "Invalid username or password")
      else
        let access_token_expires := timedelta ACCESS_TOKEN_EXPIRE_MINUTES in
        let access_token :=
          create_access_token (mkClaims (Some (User.username db_user)) None)
            (Some access_token_expires) utcnow in
        ret (mkTokenResponse access_token "bearer")
  end.

(** [POST /auth/login/] *)
Definition login (user : UserCreate.t) (utcnow : Z) : M TokenResponse :=
  try_except (login_try user utcnow) isinstance_Exception
    (fun e => raise InternalServerError).

End Libraries.
End auth.

(* ================================================================== *)
(** ** app/main.py *)

Definition MovieNotFound : Exception := HTTPException 404 "Movie not found".

Module main.
Section Libraries.
Variable HS256 : string -> Claims -> string.

Definition credentials_exception : Exception :=
  HTTPException 401 "Could not validate credentials".

(** The dependency that resolves the bearer token of a request. *)
Definition get_current_user (token : Token) (utcnow : Z) : M User.t :=
  username <-
    try_except
      (payload <- call (auth.jwt_decode HS256 token SECRET_KEY utcnow) ;;
       match sub payload with
       | None => raise credentials_exception
       | Some username => ret username
       end)
      isinstance_JWTError
      (fun e => raise credentials_exception) ;;
  user <- query_first users (fun u => String.eqb (User.username u) username) ;;
  match user with
  | None => raise credentials_exception
  | Some user => ret user
  end.

End Libraries.

(** [GET /movies/{movie_id}] *)
Definition read_movie (movie_id : Z) : M Movie.t :=
  movie <- query_key movies Movie.id movie_id ;;
  match movie with
  | None => raise MovieNotFound
  | Some movie => ret movie
  end.

(** [POST /movies/] *)
Definition create_movie (movie : MovieCreate.t) (current_user : User.t)
  : M Movie.t :=
  stage (Insert_Movie (MovieCreate.title movie) (MovieCreate.description movie)
           (MovieCreate.release_year movie) (User.id current_user)) ;;
  k <- commit ;;
  db_movie <- refresh movies Movie.id k ;;
  ret db_movie.

(** [PUT /movies/{movie_id}] *)
Definition update_movie (movie_id : Z) (movie : MovieCreate.t)
  (current_user : User.t) : M Movie.t :=
  db_movie <- query_key movies Movie.id movie_id ;;
  match db_movie with
  | None => raise MovieNotFound
  | Some db_movie =>
      if negb (Movie.owner_id db_movie =? User.id current_user)
      then raise (HTTPException 403 "Not authorized to update this movie")
      else
        stage (Set_Movie_title (Movie.id db_movie)
                 (MovieCreate.title movie)) ;;
        stage (Set_Movie_description (Movie.id db_movie)
                 (MovieCreate.description movie)) ;;
        stage (Set_Movie_release_year (Movie.id db_movie)
                 (MovieCreate.release_year movie)) ;;
        commit ;;
        db_movie <- refresh movies Movie.id (Movie.id db_movie) ;;
        ret db_movie
  end.

(** [DELETE /movies/{movie_id}] *)
Definition delete_movie (movie_id : Z) (current_user : User.t) : M string :=
  db_movie <- query_key movies Movie.id movie_id ;;
  match db_movie with
  | None => raise MovieNotFound
  | Some db_movie =>
      if negb (Movie.owner_id db_movie =? User.id current_user)
      then raise (HTTPException 403 "Not authorized to delete this movie")
      else
        stage (Delete_Movie (Movie.id db_movie)) ;;
        commit ;;
        ret "Movie deleted"
  end.

(** [POST /ratings/] *)
Definition rate_movie (rating : RatingCreate.t) (current_user : User.t)
  : M Rating.t :=
  stage (Insert_Rating (RatingCreate.movie_id rating)
           (RatingCreate.rating rating) (User.id current_user)) ;;
  k <- commit ;;
  db_rating <- refresh ratings Rating.id k ;;
  ret db_rating.

(** [GET /movies/{movie_id}/ratings/] *)
Definition get_movie_ratings (movie_id : Z) : M (list Rating.t) :=
  ratings <- query_refs ratings Rating.movie_id movie_id ;;
  ret ratings.

(** [POST /comments/] *)
Definition add_comment (comment : CommentCreate.t) (current_user : User.t)
  : M Comment.t :=
  stage (Insert_Comment (CommentCreate.movie_id comment)
           (CommentCreate.text comment) (User.id current_user)
           (CommentCreate.parent_id comment)) ;;
  k <- commit ;;
  db_comment <- refresh comments Comment.id k ;;
  ret db_comment.

(** [GET /movies/{movie_id}/comments/] *)
Definition get_movie_comments (movie_id : Z) : M (list Comment.t) :=
  comments <- query_refs comments Comment.movie_id movie_id ;;
  ret comments.

(** [GET /movies/], with [skip] and [limit] defaulting to 0 and 10. *)
Definition read_movies (skip limit : Z) : M (list Movie.t) :=
  movies <- query_offset_limit movies skip limit ;;
  ret movies.


End main.

(* ================================================================== *)
(** ** app/routers/movies.py *)

Module routers_movies.

(** The body of the [try] of [update_movie]. *)
Definition update_movie_try (movie_id : Z) (movie : MovieCreate.t)
  (current_user : User.t) : M Movie.t :=
  db_movie <- query_key movies Movie.id movie_id ;;
  match db_movie with
  | None => raise MovieNotFound
  | Some db_movie =>
      if negb (Movie.owner_id db_movie =? User.id current_user)
      then raise (HTTPException 403 "Not authorized to update this movie")
      else
        stage (Set_Movie_title (Movie.id db_movie)
                 (MovieCreate.title movie)) ;;
        stage (Set_Movie_description (Movie.id db_movie)
                 (MovieCreate.description movie)) ;;
        stage (Set_Movie_release_year (Movie.id db_movie)
                 (MovieCreate.release_year movie)) ;;
        commit ;;
        db_movie <- refresh movies Movie.id (Movie.id db_movie) ;;
        ret db_movie
  end.

(** [PUT /{movie_id}] *)
Definition update_movie (movie_id : Z) (movie : MovieCreate.t)
  (current_user : User.t) : M Movie.t :=
  try_except (update_movie_try movie_id movie current_user)
    isinstance_Exception (fun e => raise InternalServerError).

(** The body of the [try] of [rate_movie]. *)
Definition rate_movie_try (movie_id : Z) (rating : Z) (current_user : User.t)
  : M Rating.t :=
  db_movie <- query_key movies Movie.id movie_id ;;
  match db_movie with
  | None => raise MovieNotFound
  | Some _ =>
      stage (Insert_Rating movie_id rating (User.id current_user)) ;;
      k <- commit ;;
      db_rating <- refresh ratings Rating.id k ;;
      ret db_rating
  end.

(** [POST /{movie_id}/ratings/] *)
Definition rate_movie (movie_id : Z) (rating : Z) (current_user : User.t)
  : M Rating.t :=
  try_except (rate_movie_try movie_id rating current_user)
    isinstance_Exception (fun e => raise InternalServerError).

(** [GET /] *)
Definition read_movies (skip limit : Z) : M (list Movie.t) :=
  try_except
    (movies <- query_offset_limit movies skip limit ;;
     ret movies)
    isinstance_Exception (fun e => raise InternalServerError).

(** The body of the [try] of [read_movie]. *)
Definition read_movie_try (movie_id : Z) : M Movie.t :=
  movie <- query_key movies Movie.id movie_id ;;
  match movie with
  | None => raise MovieNotFound
  | Some movie => ret movie
  end.

(** [GET /{movie_id}] *)
Definition read_movie (movie_id : Z) : M Movie.t :=
  try_except (read_movie_try movie_id) isinstance_Exception
    (fun e => raise InternalServerError).

(** [POST /] *)
Definition create_movie (movie : MovieCreate.t) (current_user : User.t)
  : M Movie.t :=
  try_except
    (stage (Insert_Movie (MovieCreate.title movie)
              (MovieCreate.description movie)
              (MovieCreate.release_year movie) (User.id current_user)) ;;
     k <- commit ;;
     db_movie <- refresh movies Movie.id k ;;
     ret db_movie)
    isinstance_Exception (fun e => raise InternalServerError).

(** The body of the [try] of [delete_movie]. *)
Definition delete_movie_try (movie_id : Z) (current_user : User.t)
  : M string :=
  db_movie <- query_key movies Movie.id movie_id ;;
  match db_movie with
  | None => raise MovieNotFound
  | Some db_movie =>
      if negb (Movie.owner_id db_movie =? User.id current_user)
      then raise (HTTPException 403 "Not authorized to delete this movie")
      else
        stage (Delete_Movie (Movie.id db_movie)) ;;
        commit ;;
        ret "Movie deleted"
  end.

(** [DELETE /{movie_id}] *)
Definition delete_movie (movie_id : Z) (current_user : User.t) : M string :=
  try_except (delete_movie_try movie_id current_user) isinstance_Exception
    (fun e => raise InternalServerError).

(** [GET /{movie_id}/ratings/] *)
Definition get_movie_ratings (movie_id : Z) : M (list Rating.t) :=
  try_except
    (ratings <- query_refs ratings Rating.movie_id movie_id ;;
     ret ratings)
    isinstance_Exception (fun e => raise InternalServerError).

(** The body of the [try] of [add_comment]: the comment is a plain string
    and no [parent_id] is passed to the row. *)
Definition add_comment_try (movie_id : Z) (comment : string)
  (current_user : User.t) : M Comment.t :=
  db_movie <- query_key movies Movie.id movie_id ;;
  match db_movie with
  | None => raise MovieNotFound
  | Some _ =>
      stage (Insert_Comment movie_id comment (User.id current_user) None) ;;
      k <- commit ;;
      db_comment <- refresh comments Comment.id k ;;
      ret db_comment
  end.

(** [POST /{movie_id}/comments/] *)
Definition add_comment (movie_id : Z) (comment : string)
  (current_user : User.t) : M Comment.t :=
  try_except (add_comment_try movie_id comment current_user)
    isinstance_Exception (fun e => raise InternalServerError).

(** [GET /{movie_id}/comments/] *)
Definition get_movie_comments (movie_id : Z) : M (list Comment.t) :=
  try_except
    (comments <- query_refs comments Comment.movie_id movie_id ;;
     ret comments)
    isinstance_Exception (fun e => raise InternalServerError).

End routers_movies.

(* ================================================================== *)
(** ** app/routers/users.py *)

Module routers_users.

(** The body of the [try] of [update_user_me]. *)
Definition update_user_me_try (user_update : UserUpdate.t)
  (current_user : User.t) : M User.t :=
  stage (Set_User_username (User.id current_user)
           (UserUpdate.username user_update)) ;;
  stage (Set_User_email (User.id current_user)
           (UserUpdate.email user_update)) ;;
  commit ;;
  current_user <- refresh users User.id (User.id current_user) ;;
  ret current_user.

(** [PUT /users/me].  The [except] block formats [current_user.id] into
    its log line before it raises. *)
Definition update_user_me (user_update : UserUpdate.t) (current_user : User.t)
  : M User.t :=
  try_except (update_user_me_try user_update current_user)
    isinstance_Exception
    (fun e =>
       attribute (User.id current_user) ;;
       raise InternalServerError).

(** [GET /users/me] *)
Definition read_users_me (current_user : User.t) : M User.t :=
  ret current_user.

(** The body of the [try] of [read_user]. *)
Definition read_user_try (user_id : Z) : M User.t :=
  user <- query_key users User.id user_id ;;
  match user with
  | None => raise (HTTPException 404 "User not found")
  | Some user => ret user
  end.

(** [GET /users/{user_id}] *)
Definition read_user (user_id : Z) : M User.t :=
  try_except (read_user_try user_id) isinstance_Exception
    (fun e => raise InternalServerError).

End routers_users.

(* ================================================================== *)
(** ** Deleting a comment *)

(** Modelled from the spec: no handler of the sources deletes a comment;
    what is missing is the operation itself.  The spec (sections 3 and
    4.4) says that deleting a comment cascades through its reply subtree;
    the only trace of it in the sources is the cascade declared on
    [Comment.replies] in [app/models.py], which [flush_one] follows.  The
    operation looks the comment up, fails NotFound when it is absent, and
    otherwise hands it to [db.delete] and commits. *)
Definition delete_comment (comment_id : Z) : M string :=
  db_comment <- query_key comments Comment.id comment_id ;;
  match db_comment with
  | None => raise (HTTPException 404 "Comment not found")
  | Some db_comment =>
      stage (Delete_Comment (Comment.id db_comment)) ;;
      commit ;;
      ret "Comment deleted"
  end.

(* ================================================================== *)
(** ** Sample data used by the examples *)

Definition sample_hash (password : string) : string := "$2b$" ++ password.

Definition sample_verify (password hashed : string) : bool :=
  String.eqb hashed (sample_hash password).

Definition sample_HS256 (key : string) (c : Claims) : string :=
  key ++ "." ++ match sub c with Some s => s | None => "" end.

Definition alice : User.t :=
  User.mk 1 "alice" "alice@x.com" None (sample_hash "pw1") false.

Definition bob : User.t :=
  User.mk 2 "bob" "bob@x.com" None (sample_hash "pw2") false.

Definition heat : Movie.t := Movie.mk 1 "Heat" "Crime drama" 1995 1.

Definition ronin : Movie.t := Movie.mk 2 "Ronin" "Thriller" 1998 2.

(** Two users, a movie each; movie 1 has a rating and a thread of three
    comments (2 replies to 1, 3 replies to 2); movie 2 has one comment. *)
Definition sample_db : DB :=
  mkDB [alice; bob] [heat; ronin]
    [Rating.mk 1 (Some 1) 5 2]
    [Comment.mk 1 (Some 1) "Great movie!" 2 None;
     Comment.mk 2 (Some 1) "Agreed" 1 (Some 1);
     Comment.mk 3 (Some 1) "Me too" 2 (Some 2);
     Comment.mk 4 (Some 2) "Car chases" 1 None].

(** The reply subtree of [root] in a comment table: [root] itself and,
    through [parent_id], every reply below it. *)
Inductive in_subtree (cs : list Comment.t) (root : Z) : Z -> Prop :=
| subtree_root : in_subtree cs root root
| subtree_reply (c : Comment.t) (p : Z) :
    In c cs -> Comment.parent_id c = Some p -> in_subtree cs root p ->
    in_subtree cs root (Comment.id c).

(** A set of marked keys that holds every reply to a comment it holds. *)
Definition holds_replies (cs : list Comment.t) (marked : list Z) : Prop :=
  forall c p,
    In c cs -> Comment.parent_id c = Some p -> mem p marked = true ->
    mem (Comment.id c) marked = true.

(** The number of rows of the table whose key is not marked. *)
Definition unmarked (cs : list Comment.t) (marked : list Z) : nat :=
  List.length (filter (fun c => negb (mem (Comment.id c) marked)) cs).

(** The constraints the schema declares: a primary key per table and the
    UNIQUE indexes on [users.username] and [users.email]. *)
Record constraints_hold (db : DB) : Prop := mkConstraints
  { pk_users : NoDup (map User.id (users db));
    unique_username : NoDup (map User.username (users db));
    unique_email : NoDup (map User.email (users db));
    pk_movies : NoDup (map Movie.id (movies db));
    pk_ratings : NoDup (map Rating.id (ratings db));
    pk_comments : NoDup (map Comment.id (comments db)) }.

(** What [except Exception: raise HTTPException(500)] makes of the
    outcome of the body of its [try]. *)
Definition except_Exception_500 {A : Type} (outcome : Result A * DB)
  : Result A * DB :=
  match outcome with
  | (Return a, db') => (Return a, db')
  | (Raise _, db') => (Raise InternalServerError, db')
  end.

(** The row [PUT /users/me] leaves in place of [u] when [u] is the row of
    the key [k]. *)
Definition rewritten (k : Z) (user_update : UserUpdate.t) (u : User.t)
  : User.t :=
  if User.id u =? k
  then User.mk (User.id u) (UserUpdate.username user_update)
         (UserUpdate.email user_update) (User.full_name u)
         (User.hashed_password u) (User.disabled u)
  else u.

(** The row [PUT /movies/{id}] leaves in place of [m]. *)
Definition overwritten (k : Z) (movie : MovieCreate.t) (m : Movie.t)
  : Movie.t :=
  if Movie.id m =? k
  then Movie.mk (Movie.id m) (MovieCreate.title movie)
         (MovieCreate.description movie) (MovieCreate.release_year movie)
         (Movie.owner_id m)
  else m.

(* ================================================================== *)
(** * Properties *)

(** ** Queries and keys *)

Ltac run_handler :=
  unfold get_db, bind, ret, raise, call, query_first, query_key, query_refs,
    query_offset_limit, attribute, stage, commit, refresh, try_except; simpl.

Lemma find_key_map {A : Type} (key : A -> Z) (f : A -> A) (k : Z)
  (l : list A) :
  (forall x, key (f x) = key x) ->
  find (fun r => key r =? k) (map f l)
  = option_map f (find (fun r => key r =? k) l).
Proof.
  intros Hkey. induction l as [|x l IH]; simpl; [reflexivity|].
  rewrite Hkey. destruct (key x =? k); [reflexivity | exact IH].
Qed.

Lemma find_key_eq {A : Type} (key : A -> Z) (k : Z) (l : list A) (x : A) :
  find (fun r => key r =? k) l = Some x -> In x l /\ key x = k.
Proof.
  intros H. apply find_some in H. destruct H as [Hin Hk].
  split; [exact Hin | now apply Z.eqb_eq].
Qed.

Lemma find_key_none {A : Type} (key : A -> Z) (k : Z) (l : list A) :
  (forall x, In x l -> key x <> k) -> find (fun r => key r =? k) l = None.
Proof.
  intros H. induction l as [|x l IH]; simpl; [reflexivity|].
  destruct (Z.eqb_spec (key x) k) as [E|_].
  - exfalso. apply (H x); [now left | exact E].
  - apply IH. intros y Hy. apply H. now right.
Qed.

Lemma find_key_filter_out {A : Type} (key : A -> Z) (k : Z) (l : list A) :
  find (fun r => key r =? k) (filter (fun r => negb (key r =? k)) l) = None.
Proof.
  apply find_key_none. intros x Hx. apply filter_In in Hx.
  destruct Hx as [_ Hx]. apply negb_true_iff in Hx. now apply Z.eqb_neq.
Qed.

Lemma fold_max_ge (ids : list Z) (z : Z) :
  In z ids -> z <= fold_right Z.max 0 ids.
Proof.
  induction ids as [|a ids IH]; simpl; [tauto|].
  intros [->|H]; [lia | specialize (IH H); lia].
Qed.

Lemma fold_max_nonneg (ids : list Z) : 0 <= fold_right Z.max 0 ids.
Proof. induction ids as [|a ids IH]; simpl; lia. Qed.

Lemma next_id_pos (ids : list Z) : (next_id ids =? 0) = false.
Proof.
  apply Z.eqb_neq. unfold next_id. pose proof (fold_max_nonneg ids). lia.
Qed.

Lemma next_id_fresh (ids : list Z) (z : Z) : In z ids -> z <> next_id ids.
Proof. intros H. apply fold_max_ge in H. unfold next_id. lia. Qed.

Lemma find_app_last {A : Type} (key : A -> Z) (k : Z) (l : list A) (x : A) :
  find (fun r => key r =? k) l = None -> key x = k ->
  find (fun r => key r =? k) (l ++ [x]) = Some x.
Proof.
  intros Hno Hx. induction l as [|a l IH]; simpl in *.
  - rewrite Hx, Z.eqb_refl. reflexivity.
  - destruct (key a =? k); [discriminate | now apply IH].
Qed.

(** The row an INSERT appends is the one its key reads back. *)
Lemma find_appended {A : Type} (key : A -> Z) (l : list A) (x : A) :
  key x = next_id (map key l) ->
  find (fun r => key r =? next_id (map key l)) (l ++ [x]) = Some x.
Proof.
  intros Hx. apply find_app_last; [|exact Hx].
  apply find_key_none. intros y Hy. apply next_id_fresh.
  apply in_map_iff. now exists y.
Qed.

Lemma find_existsb {A : Type} (p : A -> bool) (l : list A) :
  existsb p l = true <-> exists x, find p l = Some x.
Proof.
  induction l as [|a l IH]; simpl.
  - split; [discriminate | intros [x H]; discriminate].
  - destruct (p a); simpl; [|exact IH].
    split; [intros _; now exists a | reflexivity].
Qed.

Lemma find_not_existsb {A : Type} (p : A -> bool) (l : list A) :
  existsb p l = false <-> find p l = None.
Proof.
  induction l as [|a l IH]; simpl; [tauto|].
  destruct (p a); simpl; [|exact IH]. split; discriminate.
Qed.

(** ** Integers that fit 64 bits *)

Lemma mem_In (z : Z) (l : list Z) : mem z l = true <-> In z l.
Proof.
  unfold mem. rewrite existsb_exists. split.
  - intros (x & Hx & E). apply Z.eqb_eq in E. now subst.
  - intros H. exists z. split; [exact H | apply Z.eqb_refl].
Qed.

Lemma mem_app (z : Z) (a b : list Z) : mem z (a ++ b) = mem z a || mem z b.
Proof. apply existsb_app. Qed.

Lemma int64_spec (z : Z) : int64 z = true <-> - 2 ^ 63 <= z < 2 ^ 63.
Proof. unfold int64. rewrite andb_true_iff, Z.leb_le, Z.ltb_lt. tauto. Qed.

Lemma int64_range (z : Z) : - 2 ^ 63 <= z < 2 ^ 63 -> int64 z = true.
Proof. apply int64_spec. Qed.

Lemma fits_int64 (db : DB) (z : Z) : - 2 ^ 63 <= z < 2 ^ 63 -> fits db z = true.
Proof. intros H. apply int64_spec in H. unfold fits. now rewrite H. Qed.

Lemma fits_stored (db : DB) (z : Z) : In z (keys_of db) -> fits db z = true.
Proof.
  intros H. apply mem_In in H. unfold fits. rewrite H. apply orb_true_r.
Qed.

Lemma fits_movie (db : DB) (m : Movie.t) :
  In m (movies db) -> fits db (Movie.id m) = true.
Proof.
  intros H. apply fits_stored. unfold keys_of. apply in_or_app. right.
  apply in_or_app. left. now apply in_map.
Qed.

Lemma fits_comment (db : DB) (c : Comment.t) :
  In c (comments db) -> fits db (Comment.id c) = true.
Proof.
  intros H. apply fits_stored. unfold keys_of. apply in_or_app. right.
  apply in_or_app. right. apply in_or_app. right. now apply in_map.
Qed.

Lemma fits_found_movie (db : DB) (k : Z) (m : Movie.t) :
  find (fun x => Movie.id x =? k) (movies db) = Some m -> fits db k = true.
Proof.
  intros H. apply find_key_eq in H. destruct H as [Hin <-].
  now apply fits_movie.
Qed.

Lemma fits_found_comment (db : DB) (k : Z) (c : Comment.t) :
  find (fun x => Comment.id x =? k) (comments db) = Some c -> fits db k = true.
Proof.
  intros H. apply find_key_eq in H. destruct H as [Hin <-].
  now apply fits_comment.
Qed.

(** ** Movies: update and delete *)

Lemma overwritten_compose (k : Z) (movie : MovieCreate.t) (m : Movie.t) :
  set_release_year k (MovieCreate.release_year movie)
    (set_description k (MovieCreate.description movie)
       (set_title k (MovieCreate.title movie) m))
  = overwritten k movie m.
Proof.
  unfold set_release_year, set_description, set_title, overwritten.
  destruct (Movie.id m =? k) eqn:E; simpl; rewrite ?E; simpl; rewrite ?E;
    reflexivity.
Qed.

Lemma overwritten_id (k : Z) (movie : MovieCreate.t) (m : Movie.t) :
  Movie.id (overwritten k movie m) = Movie.id m.
Proof. unfold overwritten. destruct (Movie.id m =? k); reflexivity. Qed.

Lemma overwritten_owner_id (k : Z) (movie : MovieCreate.t) (m : Movie.t) :
  Movie.owner_id (overwritten k movie m) = Movie.owner_id m.
Proof. unfold overwritten. destruct (Movie.id m =? k); reflexivity. Qed.

Lemma overwritten_other (k : Z) (movie : MovieCreate.t) (m : Movie.t) :
  Movie.id m <> k -> overwritten k movie m = m.
Proof.
  intros H. unfold overwritten. apply Z.eqb_neq in H. now rewrite H.
Qed.

Lemma update_movie_missing (db : DB) (movie_id : Z) (movie : MovieCreate.t)
  (current_user : User.t) :
  fits db movie_id = true ->
  find (fun m => Movie.id m =? movie_id) (movies db) = None ->
  get_db (main.update_movie movie_id movie current_user) db
  = (Raise MovieNotFound, db).
Proof.
  intros Hk H. unfold main.update_movie. run_handler. now rewrite Hk, H.
Qed.

Lemma update_movie_not_owner (db : DB) (movie_id : Z) (movie : MovieCreate.t)
  (current_user : User.t) (m : Movie.t) :
  find (fun m => Movie.id m =? movie_id) (movies db) = Some m ->
  Movie.owner_id m <> User.id current_user ->
  get_db (main.update_movie movie_id movie current_user) db
  = (Raise (HTTPException 403 "Not authorized to update this movie"), db).
Proof.
  intros H Ho. unfold main.update_movie. run_handler.
  rewrite (fits_found_movie _ _ _ H), H.
  apply Z.eqb_neq in Ho. now rewrite Ho.
Qed.

(** The owner's update: the three columns are written in one flush, and
    the flush fails when the release year does not fit 64 bits. *)
Lemma update_movie_flush (db : DB) (movie_id : Z) (movie : MovieCreate.t)
  (current_user : User.t) (m : Movie.t) :
  find (fun m => Movie.id m =? movie_id) (movies db) = Some m ->
  Movie.owner_id m = User.id current_user ->
  get_db (main.update_movie movie_id movie current_user) db
  = if int64 (MovieCreate.release_year movie)
    then (Return (overwritten movie_id movie m),
          mkDB (users db) (map (overwritten movie_id movie) (movies db))
            (ratings db) (comments db))
    else (Raise OverflowError, db).
Proof.
  intros H Ho. unfold main.update_movie. run_handler.
  rewrite (fits_found_movie _ _ _ H), H.
  destruct (find_key_eq _ _ _ _ H) as [_ Hk].
  apply Z.eqb_eq in Ho. rewrite Ho. simpl. rewrite Hk.
  rewrite !map_map.
  destruct (int64 (MovieCreate.release_year movie)); [|reflexivity].
  simpl.
  rewrite (map_ext _ _ (overwritten_compose movie_id movie)).
  rewrite (find_key_map Movie.id _ _ _ (overwritten_id movie_id movie)).
  rewrite H. reflexivity.
Qed.

Lemma update_movie_owner (db : DB) (movie_id : Z) (movie : MovieCreate.t)
  (current_user : User.t) (m : Movie.t) :
  find (fun m => Movie.id m =? movie_id) (movies db) = Some m ->
  Movie.owner_id m = User.id current_user ->
  int64 (MovieCreate.release_year movie) = true ->
  get_db (main.update_movie movie_id movie current_user) db
  = (Return (overwritten movie_id movie m),
     mkDB (users db) (map (overwritten movie_id movie) (movies db))
       (ratings db) (comments db)).
Proof.
  intros H Ho Hy. rewrite (update_movie_flush _ _ _ _ _ H Ho). now rewrite Hy.
Qed.

Lemma delete_movie_missing (db : DB) (movie_id : Z) (current_user : User.t) :
  fits db movie_id = true ->
  find (fun m => Movie.id m =? movie_id) (movies db) = None ->
  get_db (main.delete_movie movie_id current_user) db
  = (Raise MovieNotFound, db).
Proof.
  intros Hk H. unfold main.delete_movie. run_handler. now rewrite Hk, H.
Qed.

Lemma delete_movie_not_owner (db : DB) (movie_id : Z) (current_user : User.t)
  (m : Movie.t) :
  find (fun m => Movie.id m =? movie_id) (movies db) = Some m ->
  Movie.owner_id m <> User.id current_user ->
  get_db (main.delete_movie movie_id current_user) db
  = (Raise (HTTPException 403 "Not authorized to delete this movie"), db).
Proof.
  intros H Ho. unfold main.delete_movie. run_handler.
  rewrite (fits_found_movie _ _ _ H), H.
  apply Z.eqb_neq in Ho. now rewrite Ho.
Qed.

Lemma delete_movie_owner (db : DB) (movie_id : Z) (current_user : User.t)
  (m : Movie.t) :
  find (fun m => Movie.id m =? movie_id) (movies db) = Some m ->
  Movie.owner_id m = User.id current_user ->
  get_db (main.delete_movie movie_id current_user) db
  = (Return "Movie deleted",
     mkDB (users db)
       (filter (fun x => negb (Movie.id x =? movie_id)) (movies db))
       (map (blank_rating movie_id) (ratings db))
       (map (blank_comment movie_id) (comments db))).
Proof.
  intros H Ho. unfold main.delete_movie. run_handler.
  rewrite (fits_found_movie _ _ _ H), H.
  destruct (find_key_eq _ _ _ _ H) as [_ Hk].
  apply Z.eqb_eq in Ho. rewrite Ho. simpl. rewrite Hk. reflexivity.
Qed.

(** A request whose movie id does not fit 64 bits fails before the
    handler can tell whether the movie exists. *)
Lemma update_movie_overflow (db : DB) (movie_id : Z) (movie : MovieCreate.t)
  (current_user : User.t) :
  fits db movie_id = false ->
  get_db (main.update_movie movie_id movie current_user) db
  = (Raise OverflowError, db).
Proof.
  intros Hk. unfold main.update_movie. run_handler. now rewrite Hk.
Qed.

Lemma delete_movie_overflow (db : DB) (movie_id : Z) (current_user : User.t) :
  fits db movie_id = false ->
  get_db (main.delete_movie movie_id current_user) db
  = (Raise OverflowError, db).
Proof.
  intros Hk. unfold main.delete_movie. run_handler. now rewrite Hk.
Qed.

(** Success of either handler pins down the row it acted on. *)
Lemma update_movie_returns (db db' : DB) (movie_id : Z) (movie : MovieCreate.t)
  (current_user : User.t) (m' : Movie.t) :
  get_db (main.update_movie movie_id movie current_user) db = (Return m', db') ->
  exists m, find (fun x => Movie.id x =? movie_id) (movies db) = Some m /\
            Movie.owner_id m = User.id current_user /\
            int64 (MovieCreate.release_year movie) = true.
Proof.
  intros H. destruct (fits db movie_id) eqn:Hk.
  2:{ rewrite (update_movie_overflow _ _ _ _ Hk) in H. discriminate. }
  destruct (find (fun x => Movie.id x =? movie_id) (movies db))
    as [m|] eqn:E.
  - exists m. split; [reflexivity|].
    destruct (Z.eq_dec (Movie.owner_id m) (User.id current_user)) as [Ho|N].
    + split; [assumption|]. rewrite (update_movie_flush _ _ _ _ _ E Ho) in H.
      destruct (int64 (MovieCreate.release_year movie));
        [reflexivity | discriminate].
    + rewrite (update_movie_not_owner _ _ _ _ _ E N) in H. discriminate.
  - rewrite (update_movie_missing _ _ _ _ Hk E) in H. discriminate.
Qed.

Lemma delete_movie_returns (db db' : DB) (movie_id : Z) (current_user : User.t)
  (v : string) :
  get_db (main.delete_movie movie_id current_user) db = (Return v, db') ->
  exists m, find (fun x => Movie.id x =? movie_id) (movies db) = Some m /\
            Movie.owner_id m = User.id current_user.
Proof.
  intros H. destruct (fits db movie_id) eqn:Hk.
  2:{ rewrite (delete_movie_overflow _ _ _ Hk) in H. discriminate. }
  destruct (find (fun x => Movie.id x =? movie_id) (movies db))
    as [m|] eqn:E.
  - exists m. split; [reflexivity|].
    destruct (Z.eq_dec (Movie.owner_id m) (User.id current_user)) as [|N];
      [assumption|].
    rewrite (delete_movie_not_owner _ _ _ _ E N) in H. discriminate.
  - rewrite (delete_movie_missing _ _ _ Hk E) in H. discriminate.
Qed.

(** With unique primary keys the row a key query returns is the row that
    carries the key. *)
Lemma find_primary_key {A : Type} (key : A -> Z) (l : list A) (x : A) :
  NoDup (map key l) -> In x l -> find (fun r => key r =? key x) l = Some x.
Proof.
  induction l as [|a l IH]; simpl; [tauto|].
  intros Hnd [->|Hin]; [now rewrite Z.eqb_refl|].
  inversion Hnd as [|? ? Hnotin Hnd']; subst.
  destruct (Z.eqb_spec (key a) (key x)) as [E|_]; [|now apply IH].
  exfalso. apply Hnotin. rewrite E. apply in_map_iff. now exists x.
Qed.

(** [except Exception] around a body whose handler re-raises a fixed
    exception: a result passes, every exception of the body (an
    [HTTPException] included) leaves as that fixed exception. *)
Lemma blanket_except {A : Type} (body : M A) (e0 : Exception) (db : DB) :
  get_db (try_except body isinstance_Exception (fun e => raise e0)) db
  = match get_db body db with
    | (Return a, db') => (Return a, db')
    | (Raise _, db') => (Raise e0, db')
    end.
Proof.
  unfold get_db, try_except, raise, isinstance_Exception.
  destruct (body (mkSession db [] false)) as [[a|e] s]; reflexivity.
Qed.




(** C10: a successful movie update ([main.update_movie] and
    [routers_movies.update_movie] alike) leaves the users, ratings and
    comments tables as they were, and the movies table row for row: each
    row keeps its id and owner_id, a row with another id is unchanged, and
    the row with the id carries the request's title, description and
    release_year. *)
Theorem update_movie_frame (db db' : DB) (movie_id : Z)
  (movie : MovieCreate.t) (current_user : User.t) (m' : Movie.t) :
  get_db (main.update_movie movie_id movie current_user) db = (Return m', db')
  \/ get_db (routers_movies.update_movie movie_id movie current_user) db
     = (Return m', db') ->
  users db' = users db /\
  ratings db' = ratings db /\
  comments db' = comments db /\
  List.length (movies db') = List.length (movies db) /\
  forall i x,
    nth_error (movies db) i = Some x ->
    exists x',
      nth_error (movies db') i = Some x' /\
      Movie.id x' = Movie.id x /\
      Movie.owner_id x' = Movie.owner_id x /\
      (Movie.id x <> movie_id -> x' = x) /\
      (Movie.id x = movie_id ->
       Movie.title x' = MovieCreate.title movie /\
       Movie.description x' = MovieCreate.description movie /\
       Movie.release_year x' = MovieCreate.release_year movie).
Proof.
  intros H.
  assert (Hmain : get_db (main.update_movie movie_id movie current_user) db
                  = (Return m', db')).
  { destruct H as [H|H]; [exact H|].
    unfold routers_movies.update_movie in H. rewrite blanket_except in H.
    change (routers_movies.update_movie_try movie_id movie current_user)
      with (main.update_movie movie_id movie current_user) in H.
    destruct (get_db (main.update_movie movie_id movie current_user) db)
      as [[a|e] s]; [exact H | discriminate]. }
  destruct (update_movie_returns _ _ _ _ _ _ Hmain) as (m & Hm & Ho & Hy).
  rewrite (update_movie_owner _ _ _ _ _ Hm Ho Hy) in Hmain.
  injection Hmain as _ <-. simpl.
  repeat split; try reflexivity.
  - apply length_map.
  - intros i x Hx. exists (overwritten movie_id movie x).
    split; [now apply map_nth_error|].
    split; [apply overwritten_id|].
    split; [apply overwritten_owner_id|].
    split; [apply overwritten_other|].
    intros E. unfold overwritten. apply Z.eqb_eq in E. rewrite E.
    simpl. auto.
Qed.

Lemma update_movie_frame_example :
  let db' :=
    snd (get_db (main.update_movie 1 (MovieCreate.mk "Heat" "Uncut" 1995)
                   alice) sample_db) in
  users db' = users sample_db /\
  ratings db' = ratings sample_db /\
  comments db' = comments sample_db /\
  nth_error (movies db') 1 = Some ronin.
Proof.
  destruct (update_movie_frame sample_db
              (snd (get_db (main.update_movie 1
                              (MovieCreate.mk "Heat" "Uncut" 1995) alice)
                      sample_db))
              1 (MovieCreate.mk "Heat" "Uncut" 1995) alice
              (Movie.mk 1 "Heat" "Uncut" 1995 1) (or_introl eq_refl))
    as (Hu & Hr & Hc & _ & Hrow).
  cbv zeta. split; [exact Hu|]. split; [exact Hr|]. split; [exact Hc|].
  destruct (Hrow 1%nat ronin eq_refl) as (x' & Hx' & _ & _ & Hsame & _).
  rewrite Hx'. f_equal. apply Hsame. simpl. lia.
Defined.

(** ** Listings *)

Lemma filter_nil {A : Type} (p : A -> bool) (l : list A) :
  (forall x, In x l -> p x = false) -> filter p l = [].
Proof.
  intros H. induction l as [|a l IH]; simpl; [reflexivity|].
  rewrite (H a (or_introl eq_refl)). apply IH. intros x Hx. apply H.
  now right.
Qed.

Lemma refers_to_false (fk : option Z) (k : Z) :
  fk <> Some k -> refers_to fk k = false.
Proof.
  destruct fk as [j|]; simpl; [|reflexivity].
  intros H. apply Z.eqb_neq. congruence.
Qed.

Lemma refers_to_true (fk : option Z) (k : Z) :
  refers_to fk k = true <-> fk = Some k.
Proof.
  destruct fk as [j|]; simpl; [|split; discriminate].
  rewrite Z.eqb_eq. split; congruence.
Qed.

(** C9, for movie ids that fit 64 bits: the two listings
    ([main.get_movie_ratings], [main.get_movie_comments]).  For a 64-bit
    movie id that no rating refers to, the ratings listing succeeds with
    the empty list, and so does the comments listing for an id that no
    comment refers to; neither tells a missing movie from one without
    ratings or comments: its answer is the same whatever the movies table
    holds. *)
Theorem listings_ignore_movies (db : DB) (movie_id : Z) :
  - 2 ^ 63 <= movie_id < 2 ^ 63 ->
  ((forall r, In r (ratings db) -> Rating.movie_id r <> Some movie_id) ->
   get_db (main.get_movie_ratings movie_id) db = (Return [], db))
  /\
  ((forall c, In c (comments db) -> Comment.movie_id c <> Some movie_id) ->
   get_db (main.get_movie_comments movie_id) db = (Return [], db))
  /\
  (forall ms : list Movie.t,
     fst (get_db (main.get_movie_ratings movie_id)
            (mkDB (users db) ms (ratings db) (comments db)))
     = fst (get_db (main.get_movie_ratings movie_id) db) /\
     fst (get_db (main.get_movie_comments movie_id)
            (mkDB (users db) ms (ratings db) (comments db)))
     = fst (get_db (main.get_movie_comments movie_id) db)).
Proof.
  intros Hk. split; [|split].
  - intros H. unfold main.get_movie_ratings. run_handler.
    rewrite (fits_int64 db _ Hk). rewrite filter_nil; [reflexivity|].
    intros r Hr. apply refers_to_false. now apply H.
  - intros H. unfold main.get_movie_comments. run_handler.
    rewrite (fits_int64 db _ Hk). rewrite filter_nil; [reflexivity|].
    intros c Hc. apply refers_to_false. now apply H.
  - intros ms.
    unfold main.get_movie_ratings, main.get_movie_comments. run_handler.
    rewrite !fits_int64 by exact Hk. split; reflexivity.
Qed.

Lemma listings_ignore_movies_example :
  get_db (main.get_movie_ratings 7) sample_db = (Return [], sample_db) /\
  get_db (main.get_movie_comments 7) sample_db = (Return [], sample_db).
Proof.
  destruct (listings_ignore_movies sample_db 7 ltac:(lia)) as (Hr & Hc & _).
  split.
  - apply Hr. simpl. intros r [<-|[]]. discriminate.
  - apply Hc. simpl. intros c [<-|[<-|[<-|[<-|[]]]]]; discriminate.
Defined.

(** Against C9 as stated (for every movie id): no rating and no comment
    of the sample store refers to the id 2^63, and yet neither listing
    returns the empty list for it: the driver cannot bind the id and both
    leave with OverflowError. *)
Lemma listings_beyond_64_bits :
  (forall r, In r (ratings sample_db) -> Rating.movie_id r <> Some (2 ^ 63)) /\
  (forall c, In c (comments sample_db) ->
             Comment.movie_id c <> Some (2 ^ 63)) /\
  get_db (main.get_movie_ratings (2 ^ 63)) sample_db
  = (Raise OverflowError, sample_db) /\
  get_db (main.get_movie_comments (2 ^ 63)) sample_db
  = (Raise OverflowError, sample_db).
Proof.
  split.
  { simpl. intros r [<-|[]]. discriminate. }
  split.
  { simpl. intros c [<-|[<-|[<-|[<-|[]]]]]; discriminate. }
  split; reflexivity.
Qed.

(** ** Deleting a movie that has ratings and comments *)

Lemma blank_rating_spec (k : Z) (r : Rating.t) :
  Rating.id (blank_rating k r) = Rating.id r /\
  Rating.rating (blank_rating k r) = Rating.rating r /\
  Rating.user_id (blank_rating k r) = Rating.user_id r /\
  (Rating.movie_id r = Some k -> Rating.movie_id (blank_rating k r) = None) /\
  (Rating.movie_id r <> Some k -> blank_rating k r = r).
Proof.
  unfold blank_rating.
  destruct (refers_to (Rating.movie_id r) k) eqn:E; simpl.
  - repeat split; try reflexivity. apply refers_to_true in E. tauto.
  - repeat split; try reflexivity. intros F. apply refers_to_true in F.
    congruence.
Qed.

Lemma blank_comment_spec (k : Z) (c : Comment.t) :
  Comment.id (blank_comment k c) = Comment.id c /\
  Comment.text (blank_comment k c) = Comment.text c /\
  Comment.user_id (blank_comment k c) = Comment.user_id c /\
  Comment.parent_id (blank_comment k c) = Comment.parent_id c /\
  (Comment.movie_id c = Some k ->
   Comment.movie_id (blank_comment k c) = None) /\
  (Comment.movie_id c <> Some k -> blank_comment k c = c).
Proof.
  unfold blank_comment.
  destruct (refers_to (Comment.movie_id c) k) eqn:E; simpl.
  - repeat split; try reflexivity. apply refers_to_true in E. tauto.
  - repeat split; try reflexivity. intros F. apply refers_to_true in F.
    congruence.
Qed.

(** C6, as the code has it: a successful owner delete
    ([main.delete_movie]) removes the movie row and no other row.  The
    users table is unchanged.  Every rating and every comment stays in its
    table, at its place, with its id and its other columns as they were;
    those that referred to the deleted movie have their movie_id set to
    NULL (the relationships of [Movie] declare no delete cascade, so the
    ORM blanks the foreign key of the children), those that did not are
    unchanged. *)
Theorem delete_movie_keeps_dependents (db : DB) (movie_id : Z)
  (current_user : User.t) (m : Movie.t) :
  find (fun x => Movie.id x =? movie_id) (movies db) = Some m ->
  Movie.owner_id m = User.id current_user ->
  exists db',
    get_db (main.delete_movie movie_id current_user) db
    = (Return "Movie deleted", db') /\
    users db' = users db /\
    (forall x, In x (movies db') <->
               In x (movies db) /\ Movie.id x <> movie_id) /\
    List.length (ratings db') = List.length (ratings db) /\
    (forall i r,
       nth_error (ratings db) i = Some r ->
       exists r',
         nth_error (ratings db') i = Some r' /\
         Rating.id r' = Rating.id r /\
         Rating.rating r' = Rating.rating r /\
         Rating.user_id r' = Rating.user_id r /\
         (Rating.movie_id r = Some movie_id -> Rating.movie_id r' = None) /\
         (Rating.movie_id r <> Some movie_id -> r' = r)) /\
    List.length (comments db') = List.length (comments db) /\
    (forall i c,
       nth_error (comments db) i = Some c ->
       exists c',
         nth_error (comments db') i = Some c' /\
         Comment.id c' = Comment.id c /\
         Comment.text c' = Comment.text c /\
         Comment.user_id c' = Comment.user_id c /\
         Comment.parent_id c' = Comment.parent_id c /\
         (Comment.movie_id c = Some movie_id -> Comment.movie_id c' = None) /\
         (Comment.movie_id c <> Some movie_id -> c' = c)).
Proof.
  intros Hm Ho. eexists. split; [now apply delete_movie_owner with m|].
  simpl. split; [reflexivity|]. split.
  { intros x. rewrite filter_In, negb_true_iff, Z.eqb_neq. tauto. }
  split; [apply length_map|]. split.
  { intros i r Hr. exists (blank_rating movie_id r).
    split; [now apply map_nth_error | apply blank_rating_spec]. }
  split; [apply length_map|].
  intros i c Hc. exists (blank_comment movie_id c).
  split; [now apply map_nth_error | apply blank_comment_spec].
Qed.

Lemma delete_movie_keeps_dependents_example :
  exists db',
    get_db (main.delete_movie 1 alice) sample_db
    = (Return "Movie deleted", db') /\
    movies db' = [ronin] /\
    map Rating.id (ratings db') = [1] /\
    map Comment.id (comments db') = [1; 2; 3; 4].
Proof.
  destruct (delete_movie_keeps_dependents sample_db 1 alice heat
              eq_refl eq_refl) as (db' & Hrun & _).
  exists db'. split; [exact Hrun|].
  vm_compute in Hrun. injection Hrun as <-. repeat split.
Defined.

(** Against C6 as stated (the rows remain as orphans that refer to the
    deleted movie id): the rows that referred to the deleted movie do not
    refer to it afterwards.  After the owner deletes movie 1 of the sample store, the
    rating of movie 1 is no longer in the ratings table as it was, and no
    rating and no comment carries movie_id 1. *)
Lemma delete_movie_orphans_lose_reference :
  exists db',
    get_db (main.delete_movie 1 alice) sample_db
    = (Return "Movie deleted", db') /\
    In (Rating.mk 1 (Some 1) 5 2) (ratings sample_db) /\
    ~ In (Rating.mk 1 (Some 1) 5 2) (ratings db') /\
    (forall r, In r (ratings db') -> Rating.movie_id r <> Some 1) /\
    (forall c, In c (comments db') -> Comment.movie_id c <> Some 1).
Proof.
  eexists. split; [reflexivity|]. simpl. split; [now left|]. split.
  - intros [H|[]]. discriminate.
  - split.
    + intros r [<-|[]]. discriminate.
    + intros c [<-|[<-|[<-|[<-|[]]]]]; discriminate.
Qed.

(** ** Ratings *)

(** [main.rate_movie] never looks at the movies table: it inserts
    whenever the driver can bind the two integers of the request. *)
Lemma rate_movie_inserts (db : DB) (rating : RatingCreate.t)
  (current_user : User.t) :
  fits db (RatingCreate.movie_id rating) = true ->
  int64 (RatingCreate.rating rating) = true ->
  get_db (main.rate_movie rating current_user) db
  = (Return (Rating.mk (next_id (map Rating.id (ratings db)))
               (Some (RatingCreate.movie_id rating))
               (RatingCreate.rating rating) (User.id current_user)),
     mkDB (users db) (movies db)
       (ratings db ++
        [Rating.mk (next_id (map Rating.id (ratings db)))
           (Some (RatingCreate.movie_id rating))
           (RatingCreate.rating rating) (User.id current_user)])
       (comments db)).
Proof.
  intros Hm Hr. unfold main.rate_movie. run_handler. rewrite Hm, Hr. simpl.
  rewrite next_id_pos. simpl.
  rewrite (find_appended Rating.id); reflexivity.
Qed.

Lemma routers_rate_movie_try_missing (db : DB) (movie_id rating : Z)
  (current_user : User.t) :
  fits db movie_id = true ->
  find (fun m => Movie.id m =? movie_id) (movies db) = None ->
  get_db (routers_movies.rate_movie_try movie_id rating current_user) db
  = (Raise MovieNotFound, db).
Proof.
  intros Hk H. unfold routers_movies.rate_movie_try. run_handler.
  now rewrite Hk, H.
Qed.

(** C7 (what the two handlers do for a movie id that does not exist, the
    id and the rating being 64-bit integers): [main.rate_movie] does not
    look the movie up; it succeeds and appends a rating that refers to the
    missing movie.  [routers_movies.rate_movie] does look it up and raises
    404 inside its [try], but its [except Exception] turns that into 500
    Internal Server Error; it inserts nothing. *)
Theorem rate_movie_unknown_movie (db : DB) (movie_id rating : Z)
  (current_user : User.t) :
  - 2 ^ 63 <= movie_id < 2 ^ 63 ->
  - 2 ^ 63 <= rating < 2 ^ 63 ->
  find (fun m => Movie.id m =? movie_id) (movies db) = None ->
  (exists row,
     get_db (main.rate_movie (RatingCreate.mk movie_id rating) current_user)
       db
     = (Return row,
        mkDB (users db) (movies db) (ratings db ++ [row]) (comments db)) /\
     Rating.movie_id row = Some movie_id)
  /\
  get_db (routers_movies.rate_movie_try movie_id rating current_user) db
  = (Raise (HTTPException 404 "Movie not found"), db)
  /\
  get_db (routers_movies.rate_movie movie_id rating current_user) db
  = (Raise (HTTPException 500 "Internal Server Error"), db).
Proof.
  intros Hk Hr H. apply (fits_int64 db) in Hk. apply int64_range in Hr.
  split; [|split].
  - eexists. split; [now apply rate_movie_inserts | reflexivity].
  - now apply routers_rate_movie_try_missing.
  - unfold routers_movies.rate_movie. rewrite blanket_except.
    now rewrite routers_rate_movie_try_missing.
Qed.

Lemma rate_movie_unknown_movie_example :
  get_db (main.rate_movie (RatingCreate.mk 9 5) alice) (mkDB [alice] [] [] [])
  = (Return (Rating.mk 1 (Some 9) 5 1),
     mkDB [alice] [] [Rating.mk 1 (Some 9) 5 1] []) /\
  get_db (routers_movies.rate_movie 9 5 alice) (mkDB [alice] [] [] [])
  = (Raise (HTTPException 500 "Internal Server Error"), mkDB [alice] [] [] []).
Proof.
  destruct (rate_movie_unknown_movie (mkDB [alice] [] [] []) 9 5 alice
              ltac:(lia) ltac:(lia) eq_refl)
    as ((row & Hrun & _) & _ & Hrouter).
  split; [reflexivity | exact Hrouter].
Defined.

(** ** Registration, login and self-update *)

Section Credentials.
Variable pwd_context_hash : string -> string.
Variable pwd_context_verify : string -> string -> bool.
Variable HS256 : string -> Claims -> string.

Lemma register_user_try_username_taken (db : DB) (user : UserCreate.t) :
  username_taken (UserCreate.username user) (users db) = true ->
  get_db (auth.register_user_try pwd_context_hash user) db
  = (Raise (HTTPException 400 "Username already registered"), db).
Proof.
  intros H. apply find_existsb in H. destruct H as [u Hu].
  unfold auth.register_user_try. run_handler. now rewrite Hu.
Qed.

Lemma register_user_try_email_taken (db : DB) (user : UserCreate.t) :
  username_taken (UserCreate.username user) (users db) = false ->
  email_taken (UserCreate.email user) (users db) = true ->
  get_db (auth.register_user_try pwd_context_hash user) db
  = (Raise (HTTPException 400 "Email already registered"), db).
Proof.
  intros Hn H. apply find_not_existsb in Hn. apply find_existsb in H.
  destruct H as [u Hu].
  unfold auth.register_user_try. run_handler. rewrite Hn. simpl.
  now rewrite Hu.
Qed.

(** Both uniqueness checks pass: the user is stored, with the hash of the
    password, and the handler answers with the username and the email. *)
Lemma register_user_fresh (db : DB) (user : UserCreate.t) :
  username_taken (UserCreate.username user) (users db) = false ->
  email_taken (UserCreate.email user) (users db) = false ->
  get_db (auth.register_user pwd_context_hash user) db
  = (Return (UserCreate.username user, UserCreate.email user),
     mkDB (users db ++
           [User.mk (next_id (map User.id (users db)))
              (UserCreate.username user) (UserCreate.email user) None
              (pwd_context_hash (UserCreate.password user)) false])
       (movies db) (ratings db) (comments db)).
Proof.
  intros Hn He. unfold auth.register_user. rewrite blanket_except.
  unfold auth.register_user_try. run_handler.
  rewrite (proj1 (find_not_existsb _ _) Hn). simpl.
  rewrite (proj1 (find_not_existsb _ _) He). simpl.
  rewrite Hn, He. simpl. rewrite next_id_pos. simpl.
  rewrite (find_appended User.id); reflexivity.
Qed.

Lemma register_user_try_conflict (db : DB) (user : UserCreate.t) :
  username_taken (UserCreate.username user) (users db) = true \/
  email_taken (UserCreate.email user) (users db) = true ->
  exists detail,
    get_db (auth.register_user_try pwd_context_hash user) db
    = (Raise (HTTPException 400 detail), db).
Proof.
  intros H.
  destruct (username_taken (UserCreate.username user) (users db)) eqn:Hn.
  - eexists. now apply register_user_try_username_taken.
  - destruct H as [H|H]; [discriminate|].
    eexists. now apply register_user_try_email_taken.
Qed.

Lemma register_user_conflict (db : DB) (user : UserCreate.t) :
  username_taken (UserCreate.username user) (users db) = true \/
  email_taken (UserCreate.email user) (users db) = true ->
  get_db (auth.register_user pwd_context_hash user) db
  = (Raise InternalServerError, db).
Proof.
  intros H. destruct (register_user_try_conflict db user H) as [detail Htry].
  unfold auth.register_user. rewrite blanket_except. now rewrite Htry.
Qed.

(** C1 (what registration does on a duplicate): when the username or the
    email of the request is already that of a stored user, the body of
    [register_user] raises 400 (the username is checked first, then the
    email), the enclosing [except Exception] catches it, and the handler
    leaves with 500 Internal Server Error; the store is unchanged. *)
Theorem register_user_duplicate (db : DB) (user : UserCreate.t) :
  username_taken (UserCreate.username user) (users db) = true \/
  email_taken (UserCreate.email user) (users db) = true ->
  (exists detail,
     get_db (auth.register_user_try pwd_context_hash user) db
     = (Raise (HTTPException 400 detail), db))
  /\
  get_db (auth.register_user pwd_context_hash user) db
  = (Raise (HTTPException 500 "Internal Server Error"), db).
Proof.
  intros H. split.
  - now apply register_user_try_conflict.
  - now apply register_user_conflict.
Qed.

(** Registering twice: after a registration that succeeded, a second
    request with the same username or the same email raises 400 in the
    body of the handler and leaves it as 500; the store keeps the one
    user. *)
Theorem register_user_twice (db db1 : DB) (user again : UserCreate.t)
  (answer : string * string) :
  get_db (auth.register_user pwd_context_hash user) db = (Return answer, db1) ->
  UserCreate.username again = UserCreate.username user \/
  UserCreate.email again = UserCreate.email user ->
  answer = (UserCreate.username user, UserCreate.email user) /\
  (exists detail,
     get_db (auth.register_user_try pwd_context_hash again) db1
     = (Raise (HTTPException 400 detail), db1)) /\
  get_db (auth.register_user pwd_context_hash again) db1
  = (Raise (HTTPException 500 "Internal Server Error"), db1).
Proof.
  intros Hfirst Hsame.
  destruct (username_taken (UserCreate.username user) (users db)) eqn:Hn.
  { rewrite register_user_conflict in Hfirst; [discriminate | now left]. }
  destruct (email_taken (UserCreate.email user) (users db)) eqn:He.
  { rewrite register_user_conflict in Hfirst; [discriminate | now right]. }
  rewrite (register_user_fresh _ _ Hn He) in Hfirst.
  injection Hfirst as <- <-. split; [reflexivity|].
  assert (Htaken :
            username_taken (UserCreate.username again)
              (users db ++
               [User.mk (next_id (map User.id (users db)))
                  (UserCreate.username user) (UserCreate.email user) None
                  (pwd_context_hash (UserCreate.password user)) false])
            = true \/
            email_taken (UserCreate.email again)
              (users db ++
               [User.mk (next_id (map User.id (users db)))
                  (UserCreate.username user) (UserCreate.email user) None
                  (pwd_context_hash (UserCreate.password user)) false])
            = true).
  { unfold username_taken, email_taken. rewrite !existsb_app. simpl.
    destruct Hsame as [->| ->]; [left | right];
      rewrite String.eqb_refl; apply orb_true_iff; right; reflexivity. }
  split.
  - now apply register_user_try_conflict.
  - now apply register_user_conflict.
Qed.

Lemma login_try_rejects (db : DB) (user : UserCreate.t) (utcnow : Z) :
  (forall u,
     find (fun u => String.eqb (User.username u) (UserCreate.username user))
       (users db) = Some u ->
     pwd_context_verify (UserCreate.password user) (User.hashed_password u)
     = false) ->
  get_db (auth.login_try pwd_context_verify HS256 user utcnow) db
  = (Raise (HTTPException 401 "Invalid username or password"), db).
Proof.
  intros H. unfold auth.login_try. run_handler.
  destruct (find _ (users db)) as [u|] eqn:E; [|reflexivity].
  unfold auth.verify_password. now rewrite (H u eq_refl).
Qed.

Lemma login_rejects (db : DB) (user : UserCreate.t) (utcnow : Z) :
  (forall u,
     find (fun u => String.eqb (User.username u) (UserCreate.username user))
       (users db) = Some u ->
     pwd_context_verify (UserCreate.password user) (User.hashed_password u)
     = false) ->
  get_db (auth.login pwd_context_verify HS256 user utcnow) db
  = (Raise InternalServerError, db).
Proof.
  intros H. unfold auth.login. rewrite blanket_except.
  now rewrite login_try_rejects.
Qed.

(** A known username and a password that verifies: a bearer token for
    that username, expiring 30 minutes later, signed with the server key. *)
Lemma login_accepts (db : DB) (user : UserCreate.t) (utcnow : Z) (u : User.t) :
  find (fun u => String.eqb (User.username u) (UserCreate.username user))
    (users db) = Some u ->
  pwd_context_verify (UserCreate.password user) (User.hashed_password u)
  = true ->
  get_db (auth.login pwd_context_verify HS256 user utcnow) db
  = (Return
       (auth.mkTokenResponse
          (auth.jwt_encode HS256
             (mkClaims (Some (UserCreate.username user))
                (Some (utcnow + 30 * 60)))
             SECRET_KEY)
          "bearer"),
     db).
Proof.
  intros Hu Hv. unfold auth.login. rewrite blanket_except.
  unfold auth.login_try. run_handler. rewrite Hu.
  unfold auth.verify_password. rewrite Hv. simpl.
  apply find_some in Hu. destruct Hu as [_ Hu]. apply String.eqb_eq in Hu.
  rewrite Hu. reflexivity.
Qed.

(** C2 (what login does): when the username is unknown or the password
    does not verify against the stored hash, the body of [login] raises
    401, the enclosing [except Exception] catches it, and the handler
    leaves with 500 Internal Server Error.  Otherwise login succeeds with
    a signed bearer token. *)
Theorem login_outcomes (db : DB) (user : UserCreate.t) (utcnow : Z) :
  ((forall u,
      find (fun u => String.eqb (User.username u) (UserCreate.username user))
        (users db) = Some u ->
      pwd_context_verify (UserCreate.password user) (User.hashed_password u)
      = false) ->
   get_db (auth.login_try pwd_context_verify HS256 user utcnow) db
   = (Raise (HTTPException 401 "Invalid username or password"), db) /\
   get_db (auth.login pwd_context_verify HS256 user utcnow) db
   = (Raise (HTTPException 500 "Internal Server Error"), db))
  /\
  (forall u,
     find (fun u => String.eqb (User.username u) (UserCreate.username user))
       (users db) = Some u ->
     pwd_context_verify (UserCreate.password user) (User.hashed_password u)
     = true ->
     exists token,
       get_db (auth.login pwd_context_verify HS256 user utcnow) db
       = (Return (auth.mkTokenResponse token "bearer"), db) /\
       signature token = HS256 SECRET_KEY (payload token) /\
       sub (payload token) = Some (UserCreate.username user) /\
       exp (payload token) = Some (utcnow + 30 * 60)).
Proof.
  split.
  - intros H. split; [now apply login_try_rejects | now apply login_rejects].
  - intros u Hu Hv. eexists. split; [now apply login_accepts with u|].
    repeat split.
Qed.

End Credentials.

Lemma register_user_duplicate_example :
  get_db (auth.register_user sample_hash
            (UserCreate.mk "alice" "alice2@x.com" "pw2"))
    sample_db
  = (Raise (HTTPException 500 "Internal Server Error"), sample_db).
Proof.
  apply (proj2 (register_user_duplicate sample_hash sample_db
                  (UserCreate.mk "alice" "alice2@x.com" "pw2")
                  (or_introl eq_refl))).
Defined.

Lemma register_user_twice_example :
  get_db (auth.register_user sample_hash
            (UserCreate.mk "carol" "carol2@x.com" "pw4"))
    (snd (get_db (auth.register_user sample_hash
                    (UserCreate.mk "carol" "carol@x.com" "pw3")) sample_db))
  = (Raise (HTTPException 500 "Internal Server Error"),
     snd (get_db (auth.register_user sample_hash
                    (UserCreate.mk "carol" "carol@x.com" "pw3")) sample_db)).
Proof.
  apply (register_user_twice sample_hash sample_db
           (snd (get_db (auth.register_user sample_hash
                           (UserCreate.mk "carol" "carol@x.com" "pw3"))
                   sample_db))
           (UserCreate.mk "carol" "carol@x.com" "pw3")
           (UserCreate.mk "carol" "carol2@x.com" "pw4")
           ("carol", "carol@x.com") eq_refl (or_introl eq_refl)).
Defined.

Lemma login_outcomes_example :
  get_db (auth.login sample_verify sample_HS256
            (UserCreate.mk "alice" "alice@x.com" "wrong") 1000)
    sample_db
  = (Raise (HTTPException 500 "Internal Server Error"), sample_db) /\
  get_db (auth.login sample_verify sample_HS256
            (UserCreate.mk "nobody" "n@x.com" "pw1") 1000)
    sample_db
  = (Raise (HTTPException 500 "Internal Server Error"), sample_db).
Proof.
  split.
  - apply (proj1 (login_outcomes sample_verify sample_HS256 sample_db
                    (UserCreate.mk "alice" "alice@x.com" "wrong") 1000)).
    simpl. intros u Hu. injection Hu as <-. reflexivity.
  - apply (proj1 (login_outcomes sample_verify sample_HS256 sample_db
                    (UserCreate.mk "nobody" "n@x.com" "pw1") 1000)).
    simpl. intros u Hu. discriminate.
Defined.

(** *** PUT /users/me *)

Lemma set_username_id (k : Z) (v : string) (u : User.t) :
  User.id (set_username k v u) = User.id u.
Proof. unfold set_username. destruct (User.id u =? k); reflexivity. Qed.

Lemma set_email_id (k : Z) (v : string) (u : User.t) :
  User.id (set_email k v u) = User.id u.
Proof. unfold set_email. destruct (User.id u =? k); reflexivity. Qed.

(** Writing a column of the row [k] does not touch the other rows. *)
Lemma others_set_username (k : Z) (v : string) (us : list User.t) :
  others k (map (set_username k v) us) = others k us.
Proof.
  unfold others. induction us as [|u us IH]; simpl; [reflexivity|].
  rewrite set_username_id. destruct (User.id u =? k) eqn:E; simpl.
  - exact IH.
  - unfold set_username at 1. rewrite E. now rewrite IH.
Qed.



(** Without a clash the self-update goes through. *)
Lemma update_user_me_example :
  fst (get_db (routers_users.update_user_me
                 (UserUpdate.mk "bobby" "bob@x.com") bob) sample_db)
  = Return (User.mk 2 "bobby" "bob@x.com" None (sample_hash "pw2") false).
Proof. reflexivity. Qed.

(** ** Bearer tokens *)

Section Tokens.
Variable pwd_context_verify : string -> string -> bool.
Variable HS256 : string -> Claims -> string.

Lemma login_returns (db db' : DB) (user : UserCreate.t) (T : Z)
  (response : auth.TokenResponse) :
  get_db (auth.login pwd_context_verify HS256 user T) db
  = (Return response, db') ->
  auth.access_token response
  = auth.jwt_encode HS256
      (mkClaims (Some (UserCreate.username user)) (Some (T + 30 * 60)))
      SECRET_KEY.
Proof.
  intros H.
  destruct (find (fun u => String.eqb (User.username u)
                             (UserCreate.username user)) (users db))
    as [u|] eqn:Hu.
  - destruct (pwd_context_verify (UserCreate.password user)
                (User.hashed_password u)) eqn:Hv.
    + rewrite (login_accepts _ _ _ _ _ _ Hu Hv) in H.
      injection H as <- _. reflexivity.
    + rewrite login_rejects in H; [discriminate|].
      intros u' Hu'. rewrite Hu in Hu'. injection Hu' as <-. exact Hv.
  - rewrite login_rejects in H; [discriminate|].
    intros u' Hu'. rewrite Hu in Hu'. discriminate.
Qed.
End Tokens.

Section Resolution.
Variable pwd_context_verify : string -> string -> bool.
Variable HS256 : string -> Claims -> string.

(** A token whose signature does not verify resolves to no user. *)
Lemma get_current_user_bad_signature (db : DB) (token : Token) (utcnow : Z) :
  signature token <> HS256 SECRET_KEY (payload token) ->
  get_db (main.get_current_user HS256 token utcnow) db
  = (Raise (HTTPException 401 "Could not validate credentials"), db).
Proof.
  intros H. apply String.eqb_neq in H.
  unfold main.get_current_user, auth.jwt_decode. run_handler.
  rewrite H. reflexivity.
Qed.

(** A token signed by the server whose [exp] has passed resolves to no
    user. *)
Lemma get_current_user_expired (db : DB) (claims : Claims) (e utcnow : Z) :
  exp claims = Some e -> e < utcnow ->
  get_db (main.get_current_user HS256
            (auth.jwt_encode HS256 claims SECRET_KEY) utcnow) db
  = (Raise (HTTPException 401 "Could not validate credentials"), db).
Proof.
  intros He Hlt. apply Z.ltb_lt in Hlt.
  unfold main.get_current_user, auth.jwt_decode, auth.jwt_encode.
  run_handler. rewrite String.eqb_refl, He, Hlt. reflexivity.
Qed.

(** A token signed by the server that has not expired resolves to the
    stored user its subject names. *)
Lemma get_current_user_valid (db : DB) (username : string) (e utcnow : Z) :
  utcnow <= e ->
  username_taken username (users db) = true ->
  exists u,
    get_db (main.get_current_user HS256
              (auth.jwt_encode HS256 (mkClaims (Some username) (Some e))
                 SECRET_KEY) utcnow) db
    = (Return u, db) /\
    In u (users db) /\ User.username u = username.
Proof.
  intros Hle Hu. apply find_existsb in Hu. destruct Hu as [u Hu].
  exists u. assert (Hnlt : (e <? utcnow) = false) by (apply Z.ltb_ge; lia).
  split.
  - unfold main.get_current_user, auth.jwt_decode, auth.jwt_encode.
    run_handler. rewrite String.eqb_refl, Hnlt. simpl. rewrite Hu.
    reflexivity.
  - apply find_some in Hu. destruct Hu as [Hin Hu].
    apply String.eqb_eq in Hu. now split.
Qed.

(** C3: the lifetime of a token.  Let [login] succeed at time [T] (in
    seconds) and return a token.  At every time up to [T] plus 30 minutes
    (so at every time strictly before it) [main.get_current_user] accepts
    the token, in any store that still holds a user of that username, and
    resolves it to that user.  At every time after [T] plus 30 minutes it
    rejects the token with 401 Unauthorized, whatever the store.  A token
    whose signature does not verify under the server key is rejected with
    401 at every time. *)
Theorem token_lifetime (db db' : DB) (user : UserCreate.t) (T : Z)
  (response : auth.TokenResponse) :
  get_db (auth.login pwd_context_verify HS256 user T) db
  = (Return response, db') ->
  (forall db1 t,
     username_taken (UserCreate.username user) (users db1) = true ->
     t <= T + 30 * 60 ->
     exists u,
       get_db (main.get_current_user HS256 (auth.access_token response) t) db1
       = (Return u, db1) /\
       In u (users db1) /\ User.username u = UserCreate.username user)
  /\
  (forall db1 t,
     T + 30 * 60 < t ->
     get_db (main.get_current_user HS256 (auth.access_token response) t) db1
     = (Raise (HTTPException 401 "Could not validate credentials"), db1))
  /\
  (forall db1 t token,
     signature token <> HS256 SECRET_KEY (payload token) ->
     get_db (main.get_current_user HS256 token t) db1
     = (Raise (HTTPException 401 "Could not validate credentials"), db1)).
Proof.
  intros H. rewrite (login_returns _ _ _ _ _ _ _ H). split; [|split].
  - intros db1 t Hu Ht. now apply get_current_user_valid.
  - intros db1 t Ht. now apply get_current_user_expired with (T + 30 * 60).
  - intros db1 t token Hs. now apply get_current_user_bad_signature.
Qed.

End Resolution.

Lemma token_lifetime_example :
  (exists u,
     get_db (main.get_current_user sample_HS256
               (mkToken (mkClaims (Some "alice") (Some 2800))
                  "your_secret_key.alice") 2799) sample_db
     = (Return u, sample_db) /\
     In u (users sample_db) /\ User.username u = "alice") /\
  get_db (main.get_current_user sample_HS256
            (mkToken (mkClaims (Some "alice") (Some 2800))
               "your_secret_key.alice") 2801) sample_db
  = (Raise (HTTPException 401 "Could not validate credentials"), sample_db).
Proof.
  destruct (token_lifetime sample_verify sample_HS256 sample_db sample_db
              (UserCreate.mk "alice" "alice@x.com" "pw1") 1000
              (auth.mkTokenResponse
                 (mkToken (mkClaims (Some "alice") (Some 2800))
                    "your_secret_key.alice") "bearer")
              eq_refl) as (Hacc & Hrej & _).
  split.
  - apply (Hacc sample_db 2799); [reflexivity | lia].
  - apply (Hrej sample_db 2801). lia.
Defined.

(** ** Comments: the delete cascade *)

Lemma filter_length_mono {A : Type} (p q : A -> bool) (l : list A) :
  (forall x, In x l -> q x = true -> p x = true) ->
  (List.length (filter q l) <= List.length (filter p l))%nat.
Proof.
  induction l as [|a l IH]; simpl; intros H; [lia|].
  assert (IH' := IH (fun x Hx => H x (or_intror Hx))).
  destruct (q a) eqn:Eq.
  - rewrite (H a (or_introl eq_refl) Eq). simpl. lia.
  - destruct (p a); simpl; lia.
Qed.

Lemma filter_length_strict {A : Type} (p q : A -> bool) (l : list A) :
  (forall x, In x l -> q x = true -> p x = true) ->
  (exists x, In x l /\ p x = true /\ q x = false) ->
  (List.length (filter q l) < List.length (filter p l))%nat.
Proof.
  induction l as [|a l IH]; simpl; intros H (x & Hx & Hp & Hq); [tauto|].
  assert (Hl : forall y, In y l -> q y = true -> p y = true)
    by (intros y Hy; apply H; now right).
  destruct Hx as [->|Hx].
  - rewrite Hp, Hq. simpl. pose proof (filter_length_mono p q l Hl). lia.
  - assert (IH' : (List.length (filter q l) < List.length (filter p l))%nat)
      by (apply IH; [exact Hl | now exists x]).
    destruct (q a) eqn:Eq.
    + rewrite (H a (or_introl eq_refl) Eq). simpl. lia.
    + destruct (p a); simpl; lia.
Qed.

Section Cascade.
Variable cs : list Comment.t.

Lemma fresh_reply_spec (marked : list Z) (c : Comment.t) :
  fresh_reply marked c = true <->
  (exists p, Comment.parent_id c = Some p /\ mem p marked = true) /\
  mem (Comment.id c) marked = false.
Proof.
  unfold fresh_reply. destruct (Comment.parent_id c) as [p|].
  - rewrite andb_true_iff, negb_true_iff. split.
    + intros [Hp Hc]. split; [now exists p | exact Hc].
    + intros [(q & Hq & Hm) Hc]. injection Hq as <-. now split.
  - split; [discriminate | intros [(q & Hq & _) _]; discriminate].
Qed.

Lemma no_fresh_reply_holds (marked : list Z) :
  filter (fresh_reply marked) cs = [] -> holds_replies cs marked.
Proof.
  intros Hnil c p Hc Hp Hm.
  destruct (mem (Comment.id c) marked) eqn:E; [reflexivity|].
  assert (Hin : In c (filter (fresh_reply marked) cs)).
  { apply filter_In. split; [exact Hc|]. apply fresh_reply_spec.
    split; [now exists p | exact E]. }
  rewrite Hnil in Hin. destruct Hin.
Qed.

Lemma cascade_fixed (marked : list Z) (n : nat) :
  filter (fresh_reply marked) cs = [] -> cascade n cs marked = marked.
Proof.
  intros Hnil. induction n as [|n IH]; simpl; [reflexivity|].
  rewrite Hnil. simpl. rewrite app_nil_r. exact IH.
Qed.

Lemma unmarked_decreases (marked : list Z) :
  filter (fresh_reply marked) cs <> [] ->
  (unmarked cs (marked ++ map Comment.id (filter (fresh_reply marked) cs))
   < unmarked cs marked)%nat.
Proof.
  intros Hne. unfold unmarked. apply filter_length_strict.
  - intros x _. rewrite !negb_true_iff, mem_app.
    intros H. apply orb_false_iff in H. tauto.
  - destruct (filter (fresh_reply marked) cs) as [|c l] eqn:E; [congruence|].
    assert (Hc : In c (filter (fresh_reply marked) cs))
      by (rewrite E; now left).
    apply filter_In in Hc. destruct Hc as [Hc Hf].
    apply fresh_reply_spec in Hf. destruct Hf as [_ Hf].
    exists c. split; [exact Hc|]. split; [now rewrite Hf|].
    rewrite negb_false_iff, mem_app. apply orb_true_iff. right.
    apply mem_In. simpl. now left.
Qed.

Lemma all_marked_holds (marked : list Z) :
  unmarked cs marked = 0%nat -> holds_replies cs marked.
Proof.
  unfold unmarked. intros H c p Hc _ _. apply length_zero_iff_nil in H.
  destruct (mem (Comment.id c) marked) eqn:E; [reflexivity|].
  assert (Hin : In c (filter (fun c => negb (mem (Comment.id c) marked)) cs))
    by (apply filter_In; split; [exact Hc | now rewrite E]).
  rewrite H in Hin. destruct Hin.
Qed.

(** Each round either finds nothing new, and the marked set is final, or
    marks a row that was not marked: as many rounds as rows suffice. *)
Lemma cascade_holds_replies (n : nat) :
  forall marked,
    (unmarked cs marked <= n)%nat -> holds_replies cs (cascade n cs marked).
Proof.
  induction n as [|n IH]; intros marked Hle.
  - simpl. apply all_marked_holds. lia.
  - destruct (filter (fresh_reply marked) cs) as [|c l] eqn:E.
    + rewrite (cascade_fixed _ _ E). now apply no_fresh_reply_holds.
    + simpl. apply IH.
      assert (Hne : filter (fresh_reply marked) cs <> []) by congruence.
      pose proof (unmarked_decreases marked Hne). lia.
Qed.

Lemma cascade_extends (n : nat) :
  forall marked z, In z marked -> In z (cascade n cs marked).
Proof.
  induction n as [|n IH]; intros marked z Hz; simpl; [exact Hz|].
  apply IH. apply in_or_app. now left.
Qed.

Lemma cascade_sound (root : Z) (n : nat) :
  forall marked,
    (forall z, In z marked -> in_subtree cs root z) ->
    forall z, In z (cascade n cs marked) -> in_subtree cs root z.
Proof.
  induction n as [|n IH]; intros marked Hm z Hz; simpl in Hz; [now apply Hm|].
  apply (IH _) in Hz; [exact Hz|].
  intros y Hy. apply in_app_or in Hy. destruct Hy as [Hy|Hy]; [now apply Hm|].
  apply in_map_iff in Hy. destruct Hy as (c & <- & Hc).
  apply filter_In in Hc. destruct Hc as [Hc Hf].
  apply fresh_reply_spec in Hf. destruct Hf as [(p & Hp & Hpm) _].
  apply subtree_reply with p; [exact Hc | exact Hp |].
  apply Hm. now apply mem_In.
Qed.

Lemma holds_replies_complete (root : Z) (marked : list Z) :
  holds_replies cs marked -> In root marked ->
  forall z, in_subtree cs root z -> In z marked.
Proof.
  intros Hh Hr z Hz. induction Hz as [|c p Hc Hp _ IH]; [exact Hr|].
  apply mem_In. apply (Hh c p Hc Hp). now apply mem_In.
Qed.

(** What the cascade marks is the reply subtree of the root, no more and
    no less. *)
Lemma delete_orphan_subtree (root z : Z) :
  In z (delete_orphan root cs) <-> in_subtree cs root z.
Proof.
  unfold delete_orphan. split.
  - apply cascade_sound. intros y [<-|[]]. apply subtree_root.
  - apply holds_replies_complete.
    + apply cascade_holds_replies. unfold unmarked.
      apply filter_length_le.
    + apply cascade_extends. now left.
Qed.

End Cascade.

(** The comment to delete is in a reply cycle exactly when its parent is
    in its own reply subtree. *)
Lemma reply_cycle_spec (cs : list Comment.t) (root : Z) (c : Comment.t) :
  find (fun x => Comment.id x =? root) cs = Some c ->
  reply_cycle root cs = false <->
  (forall p, Comment.parent_id c = Some p -> ~ in_subtree cs root p).
Proof.
  intros H. unfold reply_cycle. rewrite H.
  destruct (Comment.parent_id c) as [p|].
  - rewrite <- not_true_iff_false, mem_In, delete_orphan_subtree. split.
    + intros Hno q Hq. now injection Hq as <-.
    + intros Hno. now apply Hno.
  - split; [intros _ p Hp; discriminate | reflexivity].
Qed.

Lemma delete_comment_found (db : DB) (comment_id : Z) (c : Comment.t) :
  find (fun x => Comment.id x =? comment_id) (comments db) = Some c ->
  reply_cycle comment_id (comments db) = false ->
  get_db (delete_comment comment_id) db
  = (Return "Comment deleted",
     mkDB (users db) (movies db) (ratings db)
       (filter
          (fun x =>
             negb (mem (Comment.id x) (delete_orphan comment_id (comments db))))
          (comments db))).
Proof.
  intros H Hno. unfold delete_comment. run_handler.
  rewrite (fits_found_comment _ _ _ H), H.
  destruct (find_key_eq _ _ _ _ H) as [_ Hk]. simpl. rewrite Hk, Hno.
  reflexivity.
Qed.

Lemma delete_comment_cycle (db : DB) (comment_id : Z) (c : Comment.t) :
  find (fun x => Comment.id x =? comment_id) (comments db) = Some c ->
  reply_cycle comment_id (comments db) = true ->
  get_db (delete_comment comment_id) db = (Raise CircularDependencyError, db).
Proof.
  intros H Hcyc. unfold delete_comment. run_handler.
  rewrite (fits_found_comment _ _ _ H), H.
  destruct (find_key_eq _ _ _ _ H) as [_ Hk]. simpl. rewrite Hk, Hcyc.
  reflexivity.
Qed.

(** C5, for a comment that is not among its own replies: deleting a
    comment.  When the parent of the comment [comment_id], if it has one,
    is outside the reply subtree of [comment_id], deleting the comment
    succeeds and touches the comments table only; the comments left are
    exactly those outside the reply subtree of [comment_id] (the comment
    itself and, through parent_id, every reply below it, replies to
    replies included).  The listing of the comments of any movie (of a
    64-bit id) afterwards holds exactly that movie's comments outside the
    subtree, so none of the deleted ones. *)
Theorem delete_comment_cascades (db : DB) (comment_id : Z) (c : Comment.t) :
  find (fun x => Comment.id x =? comment_id) (comments db) = Some c ->
  (forall p, Comment.parent_id c = Some p ->
             ~ in_subtree (comments db) comment_id p) ->
  exists db',
    get_db (delete_comment comment_id) db = (Return "Comment deleted", db') /\
    users db' = users db /\
    movies db' = movies db /\
    ratings db' = ratings db /\
    (forall x,
       In x (comments db') <->
       In x (comments db) /\
       ~ in_subtree (comments db) comment_id (Comment.id x)) /\
    (forall movie_id,
     - 2 ^ 63 <= movie_id < 2 ^ 63 ->
     exists listing,
       get_db (main.get_movie_comments movie_id) db' = (Return listing, db') /\
       forall x,
         In x listing <->
         In x (comments db) /\
         Comment.movie_id x = Some movie_id /\
         ~ in_subtree (comments db) comment_id (Comment.id x)).
Proof.
  intros H Hno. apply (reply_cycle_spec _ _ _ H) in Hno.
  eexists. split; [now apply delete_comment_found with c|].
  simpl. repeat (split; [reflexivity|]).
  assert (Hleft : forall x,
             In x (filter
                     (fun x =>
                        negb (mem (Comment.id x)
                                (delete_orphan comment_id (comments db))))
                     (comments db)) <->
             In x (comments db) /\
             ~ in_subtree (comments db) comment_id (Comment.id x)).
  { intros x. rewrite filter_In, negb_true_iff.
    rewrite <- delete_orphan_subtree, <- mem_In.
    destruct (mem (Comment.id x) (delete_orphan comment_id (comments db)));
      intuition congruence. }
  split; [exact Hleft|].
  intros movie_id Hk. eexists. split.
  - unfold main.get_movie_comments. run_handler.
    rewrite fits_int64 by exact Hk. reflexivity.
  - intros x. rewrite filter_In, Hleft, refers_to_true. tauto.
Qed.

Lemma delete_comment_cascades_example :
  exists db',
    get_db (delete_comment 1) sample_db = (Return "Comment deleted", db') /\
    comments db' = [Comment.mk 4 (Some 2) "Car chases" 1 None] /\
    get_db (main.get_movie_comments 1) db' = (Return [], db').
Proof.
  destruct (delete_comment_cascades sample_db 1
              (Comment.mk 1 (Some 1) "Great movie!" 2 None) eq_refl)
    as (db' & Hrun & _).
  { simpl. discriminate. }
  exists db'. split; [exact Hrun|].
  vm_compute in Hrun. injection Hrun as <-. split; reflexivity.
Defined.

(** Against C5 as stated (for every comment): [POST /comments/] takes any
    parent_id, the id the new comment is about to get included.  On the
    sample store it stores comment 5 as a reply to comment 5.  Deleting
    that comment removes nothing: the cascade cannot order a comment
    before itself, the flush leaves with CircularDependencyError, and
    comment 5 is still in the store. *)
Lemma delete_comment_of_own_reply :
  exists db',
    get_db (main.add_comment (CommentCreate.mk 1 "Me again" (Some 5)) alice)
      sample_db
    = (Return (Comment.mk 5 (Some 1) "Me again" 1 (Some 5)), db') /\
    get_db (delete_comment 5) db' = (Raise CircularDependencyError, db') /\
    In (Comment.mk 5 (Some 1) "Me again" 1 (Some 5)) (comments db').
Proof.
  eexists. split; [reflexivity|]. split; [reflexivity|].
  simpl. tauto.
Qed.

(** ** The declared constraints on the sample store *)

Lemma sample_db_constraints : constraints_hold sample_db.
Proof.
  constructor; simpl;
    repeat (constructor; [simpl; intuition discriminate|]); constructor.
Qed.

(* ================================================================== *)
(** * Further properties of the handlers *)

(** ** Creating and reading movies *)

Lemma try_returns {A : Type} (body : M A) (catches : Exception -> bool)
  (handler : Exception -> M A) (db db' : DB) (a : A) :
  get_db body db = (Return a, db') ->
  get_db (try_except body catches handler) db = (Return a, db').
Proof.
  unfold get_db, try_except.
  destruct (body (mkSession db [] false)) as [[x|e] s]; [tauto|].
  discriminate.
Qed.

Lemma try_raises {A : Type} (body : M A) (e e0 : Exception) (db db' : DB) :
  get_db body db = (Raise e, db') ->
  get_db (try_except body isinstance_Exception (fun e => raise e0)) db
  = (Raise e0, db').
Proof. intros H. rewrite blanket_except. now rewrite H. Qed.


Lemma next_id_above (ids : list Z) (z : Z) : In z ids -> z < next_id ids.
Proof. intros H. apply fold_max_ge in H. unfold next_id. lia. Qed.


Lemma read_movie_missing (db : DB) (movie_id : Z) :
  fits db movie_id = true ->
  find (fun x => Movie.id x =? movie_id) (movies db) = None ->
  get_db (main.read_movie movie_id) db = (Raise MovieNotFound, db).
Proof.
  intros Hk H. unfold main.read_movie. run_handler. now rewrite Hk, H.
Qed.



(** ** The handlers of the routers against those of [main.py] *)

Lemma routers_update_movie_raises (db : DB) (movie_id : Z)
  (movie : MovieCreate.t) (current_user : User.t) (e : Exception) :
  get_db (main.update_movie movie_id movie current_user) db = (Raise e, db) ->
  get_db (routers_movies.update_movie movie_id movie current_user) db
  = (Raise InternalServerError, db).
Proof.
  intros H. unfold routers_movies.update_movie.
  apply try_raises with e. exact H.
Qed.

Lemma routers_delete_movie_raises (db : DB) (movie_id : Z)
  (current_user : User.t) (e : Exception) :
  get_db (main.delete_movie movie_id current_user) db = (Raise e, db) ->
  get_db (routers_movies.delete_movie movie_id current_user) db
  = (Raise InternalServerError, db).
Proof.
  intros H. unfold routers_movies.delete_movie.
  apply try_raises with e. exact H.
Qed.

Lemma routers_add_comment_try_missing (db : DB) (movie_id : Z)
  (comment : string) (current_user : User.t) :
  fits db movie_id = true ->
  find (fun m => Movie.id m =? movie_id) (movies db) = None ->
  get_db (routers_movies.add_comment_try movie_id comment current_user) db
  = (Raise MovieNotFound, db).
Proof.
  intros Hk H. unfold routers_movies.add_comment_try. run_handler.
  now rewrite Hk, H.
Qed.

Lemma read_user_try_missing (db : DB) (user_id : Z) :
  fits db user_id = true ->
  find (fun u => User.id u =? user_id) (users db) = None ->
  get_db (routers_users.read_user_try user_id) db
  = (Raise (HTTPException 404 "User not found"), db).
Proof.
  intros Hk H. unfold routers_users.read_user_try. run_handler.
  now rewrite Hk, H.
Qed.

(** A lookup that finds no row raises, be it the 404 of the handler or
    the OverflowError of the driver, and leaves the store as it was. *)
Lemma read_movie_absent (db : DB) (movie_id : Z) :
  find (fun m => Movie.id m =? movie_id) (movies db) = None ->
  exists e, get_db (main.read_movie movie_id) db = (Raise e, db).
Proof.
  intros H. destruct (fits db movie_id) eqn:Hk.
  - eexists. now apply read_movie_missing.
  - eexists. unfold main.read_movie. run_handler. now rewrite Hk.
Qed.

Lemma update_movie_absent (db : DB) (movie_id : Z) (movie : MovieCreate.t)
  (current_user : User.t) :
  find (fun m => Movie.id m =? movie_id) (movies db) = None ->
  exists e,
    get_db (main.update_movie movie_id movie current_user) db = (Raise e, db).
Proof.
  intros H. destruct (fits db movie_id) eqn:Hk.
  - eexists. now apply update_movie_missing.
  - eexists. now apply update_movie_overflow.
Qed.

Lemma delete_movie_absent (db : DB) (movie_id : Z) (current_user : User.t) :
  find (fun m => Movie.id m =? movie_id) (movies db) = None ->
  exists e, get_db (main.delete_movie movie_id current_user) db = (Raise e, db).
Proof.
  intros H. destruct (fits db movie_id) eqn:Hk.
  - eexists. now apply delete_movie_missing.
  - eexists. now apply delete_movie_overflow.
Qed.

Lemma routers_rate_movie_try_absent (db : DB) (movie_id rating : Z)
  (current_user : User.t) :
  find (fun m => Movie.id m =? movie_id) (movies db) = None ->
  exists e,
    get_db (routers_movies.rate_movie_try movie_id rating current_user) db
    = (Raise e, db).
Proof.
  intros H. destruct (fits db movie_id) eqn:Hk.
  - eexists. now apply routers_rate_movie_try_missing.
  - eexists. unfold routers_movies.rate_movie_try. run_handler.
    now rewrite Hk.
Qed.

Lemma routers_add_comment_try_absent (db : DB) (movie_id : Z)
  (comment : string) (current_user : User.t) :
  find (fun m => Movie.id m =? movie_id) (movies db) = None ->
  exists e,
    get_db (routers_movies.add_comment_try movie_id comment current_user) db
    = (Raise e, db).
Proof.
  intros H. destruct (fits db movie_id) eqn:Hk.
  - eexists. now apply routers_add_comment_try_missing.
  - eexists. unfold routers_movies.add_comment_try. run_handler.
    now rewrite Hk.
Qed.

Lemma read_user_try_absent (db : DB) (user_id : Z) :
  find (fun u => User.id u =? user_id) (users db) = None ->
  exists e, get_db (routers_users.read_user_try user_id) db = (Raise e, db).
Proof.
  intros H. destruct (fits db user_id) eqn:Hk.
  - eexists. now apply read_user_try_missing.
  - eexists. unfold routers_users.read_user_try. run_handler.
    now rewrite Hk.
Qed.

(** No handler of the routers answers 404 or 403.  For a movie id that
    is not in the store, reading, updating, deleting, rating and
    commenting all answer 500 Internal Server Error; for a movie of
    another owner, so do update and delete; for a user id that is not in
    the store, so does reading the user.  In each case the 404 or 403 is
    raised inside the [try] and replaced by the [except Exception]; the
    store is unchanged. *)
Theorem routers_answer_500 (db : DB) (movie_id : Z) (movie : MovieCreate.t)
  (rating : Z) (comment : string) (current_user : User.t) (user_id : Z) :
  (find (fun m => Movie.id m =? movie_id) (movies db) = None ->
   get_db (routers_movies.read_movie movie_id) db
   = (Raise (HTTPException 500 "Internal Server Error"), db) /\
   get_db (routers_movies.update_movie movie_id movie current_user) db
   = (Raise (HTTPException 500 "Internal Server Error"), db) /\
   get_db (routers_movies.delete_movie movie_id current_user) db
   = (Raise (HTTPException 500 "Internal Server Error"), db) /\
   get_db (routers_movies.rate_movie movie_id rating current_user) db
   = (Raise (HTTPException 500 "Internal Server Error"), db) /\
   get_db (routers_movies.add_comment movie_id comment current_user) db
   = (Raise (HTTPException 500 "Internal Server Error"), db))
  /\
  (forall m,
     find (fun m => Movie.id m =? movie_id) (movies db) = Some m ->
     Movie.owner_id m <> User.id current_user ->
     get_db (routers_movies.update_movie movie_id movie current_user) db
     = (Raise (HTTPException 500 "Internal Server Error"), db) /\
     get_db (routers_movies.delete_movie movie_id current_user) db
     = (Raise (HTTPException 500 "Internal Server Error"), db))
  /\
  (find (fun u => User.id u =? user_id) (users db) = None ->
   get_db (routers_users.read_user user_id) db
   = (Raise (HTTPException 500 "Internal Server Error"), db)).
Proof.
  split; [|split].
  - intros H. split; [|split; [|split; [|split]]].
    + destruct (read_movie_absent _ _ H) as [e He].
      unfold routers_movies.read_movie. now apply try_raises with e.
    + destruct (update_movie_absent _ _ movie current_user H) as [e He].
      now apply routers_update_movie_raises with e.
    + destruct (delete_movie_absent _ _ current_user H) as [e He].
      now apply routers_delete_movie_raises with e.
    + destruct (routers_rate_movie_try_absent _ _ rating current_user H)
        as [e He].
      unfold routers_movies.rate_movie. now apply try_raises with e.
    + destruct (routers_add_comment_try_absent _ _ comment current_user H)
        as [e He].
      unfold routers_movies.add_comment. now apply try_raises with e.
  - intros m Hm Ho. split.
    + eapply routers_update_movie_raises.
      now apply update_movie_not_owner with m.
    + eapply routers_delete_movie_raises.
      now apply delete_movie_not_owner with m.
  - intros H. destruct (read_user_try_absent _ _ H) as [e He].
    unfold routers_users.read_user. now apply try_raises with e.
Qed.

Lemma routers_answer_500_example :
  get_db (routers_movies.read_movie 9) sample_db
  = (Raise (HTTPException 500 "Internal Server Error"), sample_db) /\
  get_db (routers_movies.delete_movie 1 bob) sample_db
  = (Raise (HTTPException 500 "Internal Server Error"), sample_db) /\
  get_db (routers_users.read_user 9) sample_db
  = (Raise (HTTPException 500 "Internal Server Error"), sample_db).
Proof.
  split; [|split].
  - apply (proj1 (routers_answer_500 sample_db 9
                    (MovieCreate.mk "Heat" "Uncut" 1995) 5 "Nice" bob 9)
             eq_refl).
  - apply (proj1 (proj2 (routers_answer_500 sample_db 1
                           (MovieCreate.mk "Heat" "Uncut" 1995) 5 "Nice"
                           bob 9)) heat eq_refl).
    simpl. lia.
  - apply (proj2 (proj2 (routers_answer_500 sample_db 9
                           (MovieCreate.mk "Heat" "Uncut" 1995) 5 "Nice"
                           bob 9)) eq_refl).
Defined.

(** The handlers of the routers wrap the bodies of those of [main.py] in
    [try ... except Exception: raise HTTPException(500)].  Where the
    handler of [main.py] succeeds, its copy in the routers gives the same
    answer and leaves the same store; where the handler of [main.py]
    leaves with an exception, whichever it is, its copy leaves with 500
    Internal Server Error and the same store.  This holds on every input
    for reading, updating and deleting a movie and for the three listings
    (movies by page, ratings and comments of a movie), and for rating a
    movie that exists. *)
Theorem routers_agree_with_main (db : DB) (movie_id : Z) :
  get_db (routers_movies.read_movie movie_id) db
  = except_Exception_500 (get_db (main.read_movie movie_id) db)
  /\
  (forall movie current_user,
     get_db (routers_movies.update_movie movie_id movie current_user) db
     = except_Exception_500
         (get_db (main.update_movie movie_id movie current_user) db))
  /\
  (forall current_user,
     get_db (routers_movies.delete_movie movie_id current_user) db
     = except_Exception_500
         (get_db (main.delete_movie movie_id current_user) db))
  /\
  (forall rating current_user m,
     find (fun x => Movie.id x =? movie_id) (movies db) = Some m ->
     get_db (routers_movies.rate_movie movie_id rating current_user) db
     = except_Exception_500
         (get_db (main.rate_movie (RatingCreate.mk movie_id rating)
                    current_user) db))
  /\
  (forall skip limit,
     get_db (routers_movies.read_movies skip limit) db
     = except_Exception_500 (get_db (main.read_movies skip limit) db))
  /\
  get_db (routers_movies.get_movie_ratings movie_id) db
  = except_Exception_500 (get_db (main.get_movie_ratings movie_id) db)
  /\
  get_db (routers_movies.get_movie_comments movie_id) db
  = except_Exception_500 (get_db (main.get_movie_comments movie_id) db).
Proof.
  unfold except_Exception_500.
  split; [|split; [|split; [|split; [|split; [|split]]]]].
  - unfold routers_movies.read_movie. now rewrite blanket_except.
  - intros movie cu. unfold routers_movies.update_movie.
    now rewrite blanket_except.
  - intros cu. unfold routers_movies.delete_movie.
    now rewrite blanket_except.
  - intros rating cu m Hm.
    unfold routers_movies.rate_movie. rewrite blanket_except.
    replace (get_db (routers_movies.rate_movie_try movie_id rating cu) db)
      with (get_db (main.rate_movie (RatingCreate.mk movie_id rating) cu) db);
      [reflexivity|].
    pose proof (fits_found_movie _ _ _ Hm) as Hk.
    unfold routers_movies.rate_movie_try, main.rate_movie. run_handler.
    rewrite Hk, Hm. simpl. rewrite ?Hk. reflexivity.
  - intros skip limit. unfold routers_movies.read_movies.
    now rewrite blanket_except.
  - unfold routers_movies.get_movie_ratings. now rewrite blanket_except.
  - unfold routers_movies.get_movie_comments. now rewrite blanket_except.
Qed.

(** On the sample store: movie 1 is read through either handler; the
    ratings of the id 2^63 make [main.py] leave with OverflowError and the
    router with 500. *)
Lemma routers_agree_with_main_example :
  get_db (routers_movies.read_movie 1) sample_db = (Return heat, sample_db) /\
  get_db (main.get_movie_ratings (2 ^ 63)) sample_db
  = (Raise OverflowError, sample_db) /\
  get_db (routers_movies.get_movie_ratings (2 ^ 63)) sample_db
  = (Raise (HTTPException 500 "Internal Server Error"), sample_db).
Proof.
  split; [|split].
  - rewrite (proj1 (routers_agree_with_main sample_db 1)). reflexivity.
  - reflexivity.
  - destruct (routers_agree_with_main sample_db (2 ^ 63))
      as (_ & _ & _ & _ & _ & Hratings & _).
    rewrite Hratings. reflexivity.
Defined.

(** ** Paging through the movies *)

Lemma firstn_then_next {A : Type} (n m : nat) :
  forall rows : list A,
    firstn n rows ++ firstn m (skipn n rows) = firstn (n + m) rows.
Proof.
  induction n as [|n IH]; intros rows; simpl; [reflexivity|].
  destruct rows as [|r rows]; simpl.
  - now rewrite firstn_nil.
  - now rewrite IH.
Qed.

Lemma offset_limit_pages {A : Type} (skip n m : Z) (rows : list A) :
  0 <= skip -> 0 <= n -> 0 <= m ->
  offset_limit skip n rows ++ offset_limit (skip + n) m rows
  = offset_limit skip (n + m) rows.
Proof.
  intros Hs Hn Hm. unfold offset_limit.
  assert (En : (n <? 0) = false) by (apply Z.ltb_ge; lia).
  assert (Em : (m <? 0) = false) by (apply Z.ltb_ge; lia).
  assert (Enm : (n + m <? 0) = false) by (apply Z.ltb_ge; lia).
  rewrite En, Em, Enm.
  rewrite (Z2Nat.inj_add skip n Hs Hn), (Z2Nat.inj_add n m Hn Hm).
  rewrite (Nat.add_comm (Z.to_nat skip) (Z.to_nat n)), <- skipn_skipn.
  apply firstn_then_next.
Qed.

Lemma offset_limit_In {A : Type} (skip limit : Z) (rows : list A) (x : A) :
  In x (offset_limit skip limit rows) -> In x rows.
Proof.
  unfold offset_limit. intros H.
  assert (Hrest : In x (skipn (Z.to_nat skip) rows)).
  { destruct (limit <? 0); [exact H|].
    rewrite <- (firstn_skipn (Z.to_nat limit) (skipn (Z.to_nat skip) rows)).
    apply in_or_app. now left. }
  rewrite <- (firstn_skipn (Z.to_nat skip) rows).
  apply in_or_app. now right.
Qed.

Lemma offset_limit_length {A : Type} (skip limit : Z) (rows : list A) :
  0 <= limit ->
  Z.of_nat (List.length (offset_limit skip limit rows)) <= limit.
Proof.
  intros H. unfold offset_limit.
  assert (E : (limit <? 0) = false) by (apply Z.ltb_ge; lia). rewrite E.
  pose proof (firstn_le_length (Z.to_nat limit)
                (skipn (Z.to_nat skip) rows)). lia.
Qed.

Lemma offset_limit_past_end {A : Type} (skip limit : Z) (rows : list A) :
  Z.of_nat (List.length rows) <= skip -> offset_limit skip limit rows = [].
Proof.
  intros H. unfold offset_limit.
  rewrite skipn_all2 by lia. destruct (limit <? 0); [reflexivity|].
  apply firstn_nil.
Qed.

Lemma read_movies_page (db : DB) (skip limit : Z) :
  int64 skip = true -> int64 limit = true ->
  get_db (main.read_movies skip limit) db
  = (Return (offset_limit skip limit (movies db)), db).
Proof.
  intros Hs Hl. unfold main.read_movies. run_handler. now rewrite Hs, Hl.
Qed.

(** [GET /movies/] by pages, for a skip and page sizes that are not
    negative and, added up, fit 64 bits.  A page holds at most [limit]
    movies, all of them rows of the movies table, and it is empty once
    [skip] reaches the size of the table.  The page of [n] movies from
    [skip] followed by the page of [m] movies from [skip + n] is the page
    of [n + m] movies from [skip]: pages neither overlap nor leave a movie
    out.  Listing changes nothing in the store. *)
Theorem read_movies_pages (db : DB) (skip n m : Z) :
  0 <= skip -> 0 <= n -> 0 <= m ->
  skip + n < 2 ^ 63 -> n + m < 2 ^ 63 ->
  exists first_page next_page,
    get_db (main.read_movies skip n) db = (Return first_page, db) /\
    get_db (main.read_movies (skip + n) m) db = (Return next_page, db) /\
    get_db (main.read_movies skip (n + m)) db
    = (Return (first_page ++ next_page), db) /\
    Z.of_nat (List.length first_page) <= n /\
    (forall x, In x first_page -> In x (movies db)) /\
    (Z.of_nat (List.length (movies db)) <= skip -> first_page = []).
Proof.
  intros Hs Hn Hm Hsn Hnm.
  assert (Hfits : forall z, 0 <= z < 2 ^ 63 -> int64 z = true)
    by (intros z Hz; apply int64_range; lia).
  exists (offset_limit skip n (movies db)).
  exists (offset_limit (skip + n) m (movies db)).
  split; [apply read_movies_page; apply Hfits; lia|].
  split; [apply read_movies_page; apply Hfits; lia|].
  split.
  { rewrite read_movies_page by (apply Hfits; lia).
    now rewrite offset_limit_pages. }
  split; [now apply offset_limit_length|]. split.
  - intros x. apply offset_limit_In.
  - apply offset_limit_past_end.
Qed.

Lemma read_movies_pages_example :
  get_db (main.read_movies 0 2) sample_db = (Return [heat; ronin], sample_db) /\
  get_db (main.read_movies 0 1) sample_db = (Return [heat], sample_db) /\
  get_db (main.read_movies 1 1) sample_db = (Return [ronin], sample_db).
Proof.
  destruct (read_movies_pages sample_db 0 1 1) as (p1 & p2 & H1 & H2 & H & _);
    try lia.
  vm_compute in H1. vm_compute in H2.
  injection H1 as <-. injection H2 as <-.
  split; [exact H|]. split; reflexivity.
Defined.

(** ** Ratings and comments read back *)

Lemma filter_snoc {A : Type} (p : A -> bool) (rows : list A) (x : A) :
  filter p (rows ++ [x])
  = if p x then filter p rows ++ [x] else filter p rows.
Proof.
  rewrite filter_app. simpl. destruct (p x); [reflexivity|].
  apply app_nil_r.
Qed.

Lemma fold_max_snoc (ids : list Z) (k : Z) :
  fold_right Z.max 0 (ids ++ [k])
  = Z.max (fold_right Z.max 0 ids) (Z.max k 0).
Proof.
  induction ids as [|a ids IH]; simpl; [lia|]. rewrite IH. lia.
Qed.

Lemma next_id_snoc (ids : list Z) :
  next_id (ids ++ [next_id ids]) = next_id ids + 1.
Proof.
  unfold next_id. rewrite fold_max_snoc.
  pose proof (fold_max_nonneg ids). lia.
Qed.

Lemma refers_to_same (k : Z) : refers_to (Some k) k = true.
Proof. simpl. apply Z.eqb_refl. Qed.

Lemma refers_to_other (j k : Z) : j <> k -> refers_to (Some k) j = false.
Proof. intros H. simpl. apply Z.eqb_neq. congruence. Qed.

(** An id the driver binds in a store it still binds once the store has
    got another rating. *)
Lemma fits_rating_added (db : DB) (row : Rating.t) (z : Z) :
  fits db z = true ->
  fits (mkDB (users db) (movies db) (ratings db ++ [row]) (comments db)) z
  = true.
Proof.
  unfold fits. intros H. apply orb_true_iff in H. apply orb_true_iff.
  destruct H as [H|H]; [now left | right].
  apply mem_In. apply mem_In in H. unfold keys_of in *. simpl.
  rewrite map_app. rewrite !in_app_iff in *. tauto.
Qed.

(** What a listing returns when it returns. *)
Lemma get_movie_ratings_returns (db db' : DB) (movie_id : Z)
  (listing : list Rating.t) :
  get_db (main.get_movie_ratings movie_id) db = (Return listing, db') ->
  fits db movie_id = true /\
  listing = filter (fun r => refers_to (Rating.movie_id r) movie_id)
              (ratings db).
Proof.
  unfold main.get_movie_ratings. run_handler.
  destruct (fits db movie_id); [|discriminate].
  intros H. injection H as <- _. now split.
Qed.

Lemma get_movie_ratings_lists (db : DB) (movie_id : Z) :
  fits db movie_id = true ->
  get_db (main.get_movie_ratings movie_id) db
  = (Return (filter (fun r => refers_to (Rating.movie_id r) movie_id)
               (ratings db)), db).
Proof.
  intros H. unfold main.get_movie_ratings. run_handler. now rewrite H.
Qed.

Lemma get_movie_comments_lists (db : DB) (movie_id : Z) :
  fits db movie_id = true ->
  get_db (main.get_movie_comments movie_id) db
  = (Return (filter (fun c => refers_to (Comment.movie_id c) movie_id)
               (comments db)), db).
Proof.
  intros H. unfold main.get_movie_comments. run_handler. now rewrite H.
Qed.

(** Rating a movie, the movie id and the value being 64-bit integers,
    never fails and checks nothing: not that the movie exists, not that
    the value lies between 1 and 5, not that the user has rated the movie
    before.  The rating is stored as sent, under a key larger than every
    key of the table; the listing of the ratings of that movie is the
    former listing with the new rating at its end, the listing of any
    other movie is as before, and the other tables are untouched. *)
Theorem rate_movie_then_list (db : DB) (rating : RatingCreate.t)
  (current_user : User.t) :
  - 2 ^ 63 <= RatingCreate.movie_id rating < 2 ^ 63 ->
  - 2 ^ 63 <= RatingCreate.rating rating < 2 ^ 63 ->
  exists row db',
    get_db (main.rate_movie rating current_user) db = (Return row, db') /\
    Rating.movie_id row = Some (RatingCreate.movie_id rating) /\
    Rating.rating row = RatingCreate.rating rating /\
    Rating.user_id row = User.id current_user /\
    (forall r, In r (ratings db) -> Rating.id r < Rating.id row) /\
    users db' = users db /\
    movies db' = movies db /\
    comments db' = comments db /\
    (exists listing,
       get_db (main.get_movie_ratings (RatingCreate.movie_id rating)) db
       = (Return listing, db) /\
       get_db (main.get_movie_ratings (RatingCreate.movie_id rating)) db'
       = (Return (listing ++ [row]), db')) /\
    (forall other listing,
       other <> RatingCreate.movie_id rating ->
       get_db (main.get_movie_ratings other) db = (Return listing, db) ->
       get_db (main.get_movie_ratings other) db' = (Return listing, db')).
Proof.
  intros Hk Hr. apply int64_range in Hr.
  eexists. eexists. split; [apply rate_movie_inserts|];
    [now apply fits_int64 | exact Hr |].
  simpl. repeat (split; [reflexivity|]). split.
  { intros r Hr'. apply next_id_above. apply in_map_iff. now exists r. }
  repeat (split; [reflexivity|]). split.
  - eexists. split; [apply get_movie_ratings_lists; now apply fits_int64|].
    rewrite get_movie_ratings_lists by now apply fits_int64.
    simpl. rewrite filter_snoc. simpl. now rewrite Z.eqb_refl.
  - intros other listing Hne H.
    apply get_movie_ratings_returns in H. destruct H as [Ho ->].
    rewrite get_movie_ratings_lists by now apply fits_rating_added.
    simpl. rewrite filter_snoc. simpl.
    apply Z.eqb_neq in Hne. rewrite Z.eqb_sym in Hne. now rewrite Hne.
Qed.

Lemma rate_movie_then_list_example :
  get_db (main.get_movie_ratings 2)
    (snd (get_db (main.rate_movie (RatingCreate.mk 1 99) alice) sample_db))
  = (Return [],
     snd (get_db (main.rate_movie (RatingCreate.mk 1 99) alice) sample_db)).
Proof.
  destruct (rate_movie_then_list sample_db (RatingCreate.mk 1 99) alice)
    as (row & db' & Hrun & _ & _ & _ & _ & _ & _ & _ & _ & Hother).
  { simpl. lia. }
  { simpl. lia. }
  vm_compute in Hrun. injection Hrun as <- <-.
  apply (Hother 2 []); [simpl; lia | reflexivity].
Defined.

(** The same user may rate the same movie again (the movie id and the
    two values being 64-bit integers): the second rating is a second row,
    with the next key, and both are listed. *)
Theorem rate_movie_twice (db : DB) (movie_id first second : Z)
  (current_user : User.t) :
  - 2 ^ 63 <= movie_id < 2 ^ 63 ->
  - 2 ^ 63 <= first < 2 ^ 63 ->
  - 2 ^ 63 <= second < 2 ^ 63 ->
  exists row1 db1 row2 db2,
    get_db (main.rate_movie (RatingCreate.mk movie_id first) current_user) db
    = (Return row1, db1) /\
    get_db (main.rate_movie (RatingCreate.mk movie_id second) current_user) db1
    = (Return row2, db2) /\
    Rating.id row2 = Rating.id row1 + 1 /\
    Rating.rating row1 = first /\
    Rating.rating row2 = second /\
    ratings db2 = ratings db ++ [row1; row2] /\
    exists listing,
      get_db (main.get_movie_ratings movie_id) db = (Return listing, db) /\
      get_db (main.get_movie_ratings movie_id) db2
      = (Return (listing ++ [row1; row2]), db2).
Proof.
  intros Hk H1 H2.
  eexists. eexists. eexists. eexists.
  split; [apply rate_movie_inserts;
          [now apply fits_int64 | now apply int64_range]|].
  split; [apply rate_movie_inserts;
          [now apply fits_int64 | now apply int64_range]|].
  simpl. split.
  { rewrite map_app. simpl. apply next_id_snoc. }
  split; [reflexivity|]. split; [reflexivity|]. split.
  { now rewrite <- app_assoc. }
  eexists. split; [apply get_movie_ratings_lists; now apply fits_int64|].
  rewrite get_movie_ratings_lists by now apply fits_int64. simpl.
  rewrite !filter_snoc. simpl. rewrite Z.eqb_refl.
  now rewrite <- app_assoc.
Qed.

Lemma rate_movie_twice_example :
  exists db2,
    snd (get_db (main.rate_movie (RatingCreate.mk 1 2) bob)
           (snd (get_db (main.rate_movie (RatingCreate.mk 1 4) bob)
                   sample_db)))
    = db2 /\
    get_db (main.get_movie_ratings 1) db2
    = (Return [Rating.mk 1 (Some 1) 5 2; Rating.mk 2 (Some 1) 4 2;
               Rating.mk 3 (Some 1) 2 2], db2).
Proof.
  destruct (rate_movie_twice sample_db 1 4 2 bob)
    as (row1 & db1 & row2 & db2 & Hrun1 & Hrun2 & _ & _ & _ & _ &
        listing & Hbefore & Hafter); try lia.
  vm_compute in Hrun1. injection Hrun1 as <- <-.
  vm_compute in Hrun2. injection Hrun2 as <- <-.
  vm_compute in Hbefore. injection Hbefore as <-.
  eexists. split; [reflexivity | exact Hafter].
Defined.







(** ** Tokens: issue and resolution *)

Section Issue.
Variable HS256 : string -> Claims -> string.

Lemma jwt_decode_own (claims : Claims) (utcnow : Z) :
  auth.jwt_decode HS256 (auth.jwt_encode HS256 claims SECRET_KEY) SECRET_KEY
    utcnow
  = match exp claims with
    | Some e => if e <? utcnow then Raise ExpiredSignatureError
                else Return claims
    | None => Return claims
    end.
Proof.
  unfold auth.jwt_decode, auth.jwt_encode. simpl.
  now rewrite String.eqb_refl.
Qed.

(** [create_access_token]: the token keeps the subject of the data and
    gets an expiry.  Without a lifetime the expiry is 15 minutes after
    issue, and so it is with a lifetime of zero (a zero [timedelta] is
    falsy, so the default takes its place); any other lifetime is added to
    the time of issue.  Decoding the token under the server key gives back
    its claims at every time up to the expiry and raises
    [ExpiredSignatureError] after it; a token issued with a negative
    lifetime is expired from the start. *)
Theorem create_access_token_expiry (data : Claims) (utcnow : Z) :
  (forall expires_delta,
     sub (payload (auth.create_access_token HS256 data expires_delta utcnow))
     = sub data)
  /\
  exp (payload (auth.create_access_token HS256 data None utcnow))
  = Some (utcnow + 15 * 60)
  /\
  exp (payload (auth.create_access_token HS256 data (Some 0) utcnow))
  = Some (utcnow + 15 * 60)
  /\
  (forall d,
     d <> 0 ->
     exp (payload (auth.create_access_token HS256 data (Some d) utcnow))
     = Some (utcnow + d))
  /\
  (forall expires_delta e t,
     exp (payload (auth.create_access_token HS256 data expires_delta utcnow))
     = Some e ->
     (t <= e ->
      auth.jwt_decode HS256
        (auth.create_access_token HS256 data expires_delta utcnow)
        SECRET_KEY t
      = Return (mkClaims (sub data) (Some e))) /\
     (e < t ->
      auth.jwt_decode HS256
        (auth.create_access_token HS256 data expires_delta utcnow)
        SECRET_KEY t
      = Raise ExpiredSignatureError))
  /\
  (forall d,
     d < 0 ->
     auth.jwt_decode HS256
       (auth.create_access_token HS256 data (Some d) utcnow) SECRET_KEY utcnow
     = Raise ExpiredSignatureError).
Proof.
  split; [reflexivity|]. split; [reflexivity|]. split; [reflexivity|].
  split; [|split].
  - intros d Hd. unfold auth.create_access_token, or_else. simpl.
    apply Z.eqb_neq in Hd. now rewrite Hd.
  - intros delta e t He. unfold auth.create_access_token in *.
    rewrite jwt_decode_own. simpl in *. injection He as <-. split.
    + intros Ht. assert (E : (utcnow + or_else delta (timedelta 15) <? t)
                             = false) by (apply Z.ltb_ge; lia).
      now rewrite E.
    + intros Ht. apply Z.ltb_lt in Ht. now rewrite Ht.
  - intros d Hd. unfold auth.create_access_token. rewrite jwt_decode_own.
    simpl. unfold or_else.
    assert (E0 : (d =? 0) = false) by (apply Z.eqb_neq; lia). rewrite E0.
    assert (E : (utcnow + d <? utcnow) = true) by (apply Z.ltb_lt; lia).
    now rewrite E.
Qed.

End Issue.

Lemma create_access_token_expiry_example :
  exp (payload (auth.create_access_token sample_HS256
                  (mkClaims (Some "alice") None) (Some 60) 1000))
  = Some 1060 /\
  auth.jwt_decode sample_HS256
    (auth.create_access_token sample_HS256 (mkClaims (Some "alice") None)
       (Some 60) 1000) SECRET_KEY 1061
  = Raise ExpiredSignatureError.
Proof.
  destruct (create_access_token_expiry sample_HS256
              (mkClaims (Some "alice") None) 1000)
    as (_ & _ & _ & Hd & Hdecode & _).
  split.
  - apply Hd. lia.
  - apply (proj2 (Hdecode (Some 60) 1060 1061 eq_refl)). lia.
Defined.

Section Resolve.
Variable pwd_context_hash : string -> string.
Variable pwd_context_verify : string -> string -> bool.
Variable HS256 : string -> Claims -> string.






End Resolve.



(** ** Ownership from creation to deletion *)




Lemma blanked_ratings_do_not_refer (k : Z) (rs : list Rating.t) :
  filter (fun r => refers_to (Rating.movie_id r) k) (map (blank_rating k) rs)
  = [].
Proof.
  apply filter_nil. intros r Hr. apply in_map_iff in Hr.
  destruct Hr as (r0 & <- & _). unfold blank_rating.
  destruct (refers_to (Rating.movie_id r0) k) eqn:E; [reflexivity | exact E].
Qed.

Lemma blanked_comments_do_not_refer (k : Z) (cs : list Comment.t) :
  filter (fun c => refers_to (Comment.movie_id c) k)
    (map (blank_comment k) cs)
  = [].
Proof.
  apply filter_nil. intros c Hc. apply in_map_iff in Hc.
  destruct Hc as (c0 & <- & _). unfold blank_comment.
  destruct (refers_to (Comment.movie_id c0) k) eqn:E; [reflexivity | exact E].
Qed.

(** After its owner has deleted a movie the id is gone for every handler:
    reading, updating and deleting it again answer 404, by whomever, and
    the listings of its ratings and of its comments are empty.  The id is
    a 64-bit integer, as the key of a stored row is; once the row is gone
    the store itself no longer shows it. *)
Theorem deleted_movie_is_gone (db : DB) (movie_id : Z) (current_user : User.t)
  (m : Movie.t) :
  - 2 ^ 63 <= movie_id < 2 ^ 63 ->
  find (fun x => Movie.id x =? movie_id) (movies db) = Some m ->
  Movie.owner_id m = User.id current_user ->
  exists db',
    get_db (main.delete_movie movie_id current_user) db
    = (Return "Movie deleted", db') /\
    get_db (main.read_movie movie_id) db'
    = (Raise (HTTPException 404 "Movie not found"), db') /\
    (forall change anyone,
       get_db (main.update_movie movie_id change anyone) db'
       = (Raise (HTTPException 404 "Movie not found"), db')) /\
    (forall anyone,
       get_db (main.delete_movie movie_id anyone) db'
       = (Raise (HTTPException 404 "Movie not found"), db')) /\
    get_db (main.get_movie_ratings movie_id) db' = (Return [], db') /\
    get_db (main.get_movie_comments movie_id) db' = (Return [], db').
Proof.
  intros Hk Hm Ho. eexists. split; [now apply delete_movie_owner with m|].
  match goal with
  | |- context [get_db (main.read_movie _) ?d] =>
      assert (Hgone : find (fun x => Movie.id x =? movie_id) (movies d) = None)
        by apply (find_key_filter_out Movie.id);
      assert (Hfits : fits d movie_id = true) by now apply fits_int64
  end.
  split; [now apply read_movie_missing|].
  split; [intros; now apply update_movie_missing|].
  split; [intros; now apply delete_movie_missing|].
  split.
  - rewrite get_movie_ratings_lists by exact Hfits. simpl.
    now rewrite blanked_ratings_do_not_refer.
  - rewrite get_movie_comments_lists by exact Hfits. simpl.
    now rewrite blanked_comments_do_not_refer.
Qed.

Lemma deleted_movie_is_gone_example :
  exists db',
    get_db (main.delete_movie 1 alice) sample_db
    = (Return "Movie deleted", db') /\
    get_db (main.read_movie 1) db'
    = (Raise (HTTPException 404 "Movie not found"), db') /\
    get_db (main.get_movie_comments 1) db' = (Return [], db').
Proof.
  destruct (deleted_movie_is_gone sample_db 1 alice heat ltac:(lia)
              eq_refl eq_refl)
    as (db' & Hdel & Hread & _ & _ & _ & Hcomments).
  exists db'. repeat split; assumption.
Defined.

(** ** Updating one's own profile *)

Lemma rewritten_compose (k : Z) (user_update : UserUpdate.t) (u : User.t) :
  set_email k (UserUpdate.email user_update)
    (set_username k (UserUpdate.username user_update) u)
  = rewritten k user_update u.
Proof.
  unfold set_email, set_username, rewritten.
  destruct (User.id u =? k) eqn:E; simpl; rewrite E; reflexivity.
Qed.

Lemma rewritten_id (k : Z) (user_update : UserUpdate.t) (u : User.t) :
  User.id (rewritten k user_update u) = User.id u.
Proof. unfold rewritten. destruct (User.id u =? k); reflexivity. Qed.

Lemma same_column_same_row {A B : Type} (col : A -> B) (rows : list A)
  (a b : A) :
  NoDup (map col rows) -> In a rows -> In b rows -> col a = col b -> a = b.
Proof.
  induction rows as [|r rows IH]; simpl; [tauto|].
  intros Hnd Ha Hb E. apply NoDup_cons_iff in Hnd. destruct Hnd as [Hr Hnd].
  destruct Ha as [->|Ha], Hb as [->|Hb].
  - reflexivity.
  - exfalso. apply Hr. rewrite E. now apply in_map.
  - exfalso. apply Hr. rewrite <- E. now apply in_map.
  - now apply IH.
Qed.

Lemma update_user_me_writes (db : DB) (user_update : UserUpdate.t)
  (current_user : User.t) :
  NoDup (map User.id (users db)) ->
  In current_user (users db) ->
  username_taken (UserUpdate.username user_update)
    (others (User.id current_user) (users db)) = false ->
  email_taken (UserUpdate.email user_update)
    (others (User.id current_user) (users db)) = false ->
  get_db (routers_users.update_user_me user_update current_user) db
  = (Return (rewritten (User.id current_user) user_update current_user),
     mkDB (map (rewritten (User.id current_user) user_update) (users db))
       (movies db) (ratings db) (comments db)).
Proof.
  intros Hpk Hin Hn He. unfold routers_users.update_user_me.
  apply try_returns. unfold routers_users.update_user_me_try. run_handler.
  rewrite Hn. simpl. rewrite others_set_username, He. simpl.
  rewrite map_map.
  rewrite (map_ext _ _ (rewritten_compose (User.id current_user) user_update)).
  rewrite (find_key_map User.id _ _ _
             (rewritten_id (User.id current_user) user_update)).
  now rewrite (find_primary_key User.id _ _ Hpk Hin).
Qed.

Section Rename.
Variable HS256 : string -> Claims -> string.


End Rename.


(** Sending one's own current username and email is no conflict: in a
    store that satisfies its declared constraints the update succeeds,
    answers the user's row and leaves the store exactly as it was. *)
Theorem update_user_me_same_values (db : DB) (current_user : User.t) :
  constraints_hold db ->
  In current_user (users db) ->
  get_db (routers_users.update_user_me
            (UserUpdate.mk (User.username current_user)
               (User.email current_user)) current_user) db
  = (Return current_user, db).
Proof.
  intros [Hpk Hun Hue _ _ _] Hin.
  assert (Hfree : forall (col : User.t -> string),
             NoDup (map col (users db)) ->
             existsb (fun u => String.eqb (col u) (col current_user))
               (others (User.id current_user) (users db)) = false).
  { intros col Hcol.
    destruct (existsb _ (others (User.id current_user) (users db))) eqn:Ex;
      [|reflexivity]. exfalso.
    apply existsb_exists in Ex. destruct Ex as (u & Hu & Hname).
    apply String.eqb_eq in Hname. unfold others in Hu.
    apply filter_In in Hu. destruct Hu as [Hu N].
    apply negb_true_iff, Z.eqb_neq in N. apply N. f_equal.
    apply (same_column_same_row col (users db)); assumption. }
  rewrite update_user_me_writes; try assumption.
  - assert (Hsame : forall u,
               In u (users db) ->
               rewritten (User.id current_user)
                 (UserUpdate.mk (User.username current_user)
                    (User.email current_user)) u = u).
    { intros u Hu. unfold rewritten.
      destruct (Z.eqb_spec (User.id u) (User.id current_user)) as [E|_];
        [|reflexivity].
      assert (u = current_user)
        by (apply (same_column_same_row User.id (users db)); assumption).
      subst u. destruct current_user; reflexivity. }
    rewrite (Hsame current_user Hin). f_equal.
    rewrite (map_ext_in _ (fun u => u) _ Hsame), map_id.
    destruct db; reflexivity.
  - apply (Hfree User.username Hun).
  - apply (Hfree User.email Hue).
Qed.

Lemma update_user_me_same_values_example :
  get_db (routers_users.update_user_me (UserUpdate.mk "bob" "bob@x.com") bob)
    sample_db
  = (Return bob, sample_db).
Proof.
  apply (update_user_me_same_values sample_db bob sample_db_constraints).
  simpl. tauto.
Defined.

(** ** Updates do not accumulate *)



